(** * Resilient request orchestration of the DeepSeek assistant

    A shallow embedding of the TypeScript sources

    - [services/configurationManager.ts]: configuration validation;
    - the class [ErrorHandler] of [utils/errorHandler.ts], which the
      sources keep in the file [utils/logger.ts] after the class [Logger]:
      error dispatch and notification throttle;
    - the class [DeepSeekClient] (imported as [services/deepseekClient]):
      retry engine, orchestrator operations and response parsers;
    - [types/configuration.ts] and [types/deepseek.ts]: the data types;

    together with the properties the specification states about them.

    Conventions of the embedding.
    - A JavaScript string is a [string]; each character stands for one
      UTF-16 code unit below 256.
    - Integral JavaScript numbers are [Z] (or [N] for the millisecond clock
      and [nat] for counters); the [temperature] setting is a rational.
    - [Map<string, number>] is [gmap string nat].
    - Asynchronous code is run against an explicit world: a millisecond
      clock, the tables, and a log of what was sent and slept. Recursion
      that the source does not bound is given fuel. *)

From Stdlib Require Import ZArith NArith QArith Lia List.
From Stdlib Require Import Ascii String.
From stdpp Require Import base option list gmap strings pretty.

Local Open Scope Z_scope.
Local Open Scope stdpp_scope.

(** ** JavaScript string primitives *)

Module Js.

(** The line feed, the separator of [split('\n')]. *)
Definition LF : ascii := "010"%char.

(** [WhiteSpace] and [LineTerminator] code units below 256, the ones
    [String.prototype.trim] strips: TAB, LF, VT, FF, CR, SP, NBSP. *)
Definition isWhiteSpace (c : ascii) : bool :=
  match N_of_ascii c with
  | 9%N | 10%N | 11%N | 12%N | 13%N | 32%N | 160%N => true
  | _ => false
  end.

Fixpoint trimStart (s : string) : string :=
  match s with
  | EmptyString => EmptyString
  | String c s' => if isWhiteSpace c then trimStart s' else s
  end.

Fixpoint trimEnd (s : string) : string :=
  match s with
  | EmptyString => EmptyString
  | String c s' =>
      match trimEnd s' with
      | EmptyString => if isWhiteSpace c then EmptyString else String c EmptyString
      | r => String c r
      end
  end.

(** [s.trim()] *)
Definition trim (s : string) : string := trimEnd (trimStart s).

(** [s.split('\n')]: never empty, [''.split('\n')] is [['']]. *)
Fixpoint split_lines (s : string) : list string :=
  match s with
  | EmptyString => [EmptyString]
  | String c s' =>
      if Ascii.eqb c LF then EmptyString :: split_lines s'
      else match split_lines s' with
           | l :: ls => String c l :: ls
           | [] => [String c EmptyString]
           end
  end.

(** [lines.join('\n')] *)
Fixpoint join_lines (ls : list string) : string :=
  match ls with
  | [] => EmptyString
  | [l] => l
  | l :: ls' => String.append l (String LF (join_lines ls'))
  end.

(** [s.includes(needle)] *)
Fixpoint includes (needle s : string) : bool :=
  String.prefix needle s ||
  match s with
  | EmptyString => false
  | String _ s' => includes needle s'
  end.

(** [s.substring(0, n)] *)
Definition substring0 (n : nat) (s : string) : string := String.substring 0 n s.

(** Truthiness of an optional string property: [undefined] and [''] are falsy. *)
Definition truthy (o : option string) : bool :=
  match o with
  | Some EmptyString | None => false
  | Some _ => true
  end.

(** Every code unit of the string is white space; so for the empty string. *)
Fixpoint allWhiteSpace (s : string) : bool :=
  match s with
  | EmptyString => true
  | String c s' => isWhiteSpace c && allWhiteSpace s'
  end.

(** [parts.join(sep)] *)
Fixpoint join (sep : string) (parts : list string) : string :=
  match parts with
  | [] => EmptyString
  | [p] => p
  | p :: parts' => String.append p (String.append sep (join sep parts'))
  end.

End Js.

(** ** Configuration (types/configuration.ts) *)

Inductive Severity := SeverityError | SeverityWarning.

Definition Severity_eqb (a b : Severity) : bool :=
match a, b with
| SeverityError, SeverityError | SeverityWarning, SeverityWarning => true
| _, _ => false
end.

(** [ConfigurationError]; a [ConfigurationWarning] is one whose severity is
  ['warning']. *)
Record ConfigurationError := mkIssue {
field : string;
message : string;
severity : Severity
}.

Record ConfigurationValidationResult := mkValidation {
isValid : bool;
errors : list ConfigurationError;
warnings : list ConfigurationError
}.

(** The request-relevant part of [AIAssistantConfiguration]; the per-feature
  toggles and cache settings are read by no function modelled here. *)
Record AIAssistantConfiguration := mkConfig {
apiKey : string;
model : string;
maxTokens : Z;
temperature : Q
}.

Definition set_maxTokens (n : Z) (c : AIAssistantConfiguration) : AIAssistantConfiguration :=
{| apiKey := apiKey c; model := model c; maxTokens := n; temperature := temperature c |}.

(** ** ConfigurationManager (services/configurationManager.ts) *)

Module ConfigurationManager.

Definition Qltb (x y : Q) : bool := negb (Qle_bool y x).

(** [apiKey.length >= 20 && /^sk-/.test(apiKey)] *)
Definition isValidApiKeyFormat (k : string) : bool :=
  (20 <=? Z.of_nat (String.length k)) && String.prefix "sk-" k.

Definition apiKeyIssues (c : AIAssistantConfiguration) : list ConfigurationError :=
  if String.eqb (apiKey c) "" || String.eqb (Js.trim (apiKey c)) ""
  then [mkIssue "apiKey" "API Key is required" SeverityError]
  else if negb (isValidApiKeyFormat (apiKey c))
  then [mkIssue "apiKey" "API Key format appears invalid" SeverityWarning]
  else [].

Definition modelIssues (c : AIAssistantConfiguration) : list ConfigurationError :=
  if negb (String.eqb (model c) "deepseek-coder" || String.eqb (model c) "deepseek-chat")
  then [mkIssue "model" "Invalid model selected" SeverityError]
  else [].

Definition maxTokensRangeIssues (c : AIAssistantConfiguration) : list ConfigurationError :=
  if (maxTokens c <? 100) || (8192 <? maxTokens c)
  then [mkIssue "maxTokens" "Max tokens must be between 100 and 8192" SeverityError]
  else [].

Definition temperatureIssues (c : AIAssistantConfiguration) : list ConfigurationError :=
  if Qltb (temperature c) 0 || Qltb 2 (temperature c)
  then [mkIssue "temperature" "Temperature must be between 0 and 2" SeverityError]
  else [].

Definition performanceIssues (c : AIAssistantConfiguration) : list ConfigurationError :=
  if 4096 <? maxTokens c
  then [mkIssue "maxTokens" "High token count may impact performance" SeverityWarning]
  else [].

(** The local array [errors] after all the pushes, in push order. *)
Definition collected (c : AIAssistantConfiguration) : list ConfigurationError :=
  apiKeyIssues c ++ modelIssues c ++ maxTokensRangeIssues c
    ++ temperatureIssues c ++ performanceIssues c.

Definition hasSeverity (s : Severity) (e : ConfigurationError) : bool :=
  Severity_eqb (severity e) s.

Definition validateConfiguration (c : AIAssistantConfiguration)
  : ConfigurationValidationResult :=
  let errs := collected c in
  {| isValid := negb (existsb (hasSeverity SeverityError) errs);
     errors := List.filter (hasSeverity SeverityError) errs;
     warnings := List.filter (hasSeverity SeverityWarning) errs |}.

(** [testApiConnection()]: [false] without a key, otherwise the format
    check; nothing in its [try] block can throw. *)
Definition testApiConnection (c : AIAssistantConfiguration) : bool :=
  if String.eqb (apiKey c) "" then false else isValidApiKeyFormat (apiKey c).

End ConfigurationManager.

(** ** Failures

    What a [catch] clause or an error callback receives ([error: any]):
    a literal string, or an object. An object may be an [Error] instance,
    and may carry the properties the code inspects: [code], [message],
    [request], and [response] with its [status] and the
    [data.error.message] of the API error body. *)

Record ErrorResponse := mkErrorResponse {
  status : Z;
  data_error_message : option string
}.

Record ErrorObject := mkErrorObject {
  err_isError : bool;
  err_code : option string;
  err_message : option string;
  err_response : option ErrorResponse;
  err_request : bool
}.

Inductive Failure :=
| FString (s : string)
| FObject (o : ErrorObject).

(** [new Error(msg)] *)
Definition newError (msg : string) : Failure :=
  FObject (mkErrorObject true None (Some msg) None false).

Definition failure_response (error : Failure) : option ErrorResponse :=
  match error with
  | FString _ => None
  | FObject o => err_response o
  end.

Definition failure_code (error : Failure) : option string :=
  match error with
  | FString _ => None
  | FObject o => err_code o
  end.

Definition failure_message (error : Failure) : option string :=
  match error with
  | FString _ => None
  | FObject o => err_message o
  end.

(** [o === 'literal'] on an optional string property *)
Definition is_literal (o : option string) (lit : string) : bool :=
  match o with
  | Some s => String.eqb s lit
  | None => false
  end.

(** [error.response?.status === n] *)
Definition status_is (error : Failure) (n : Z) : bool :=
  match failure_response error with
  | Some r => status r =? n
  | None => false
  end.

(** ** ErrorHandler (utils/errorHandler.ts, in the file utils/logger.ts) *)

Module ErrorHandler.

Definition maxErrorsPerType : nat := 5.

(** The delay of the reset timer, [5 * 60 * 1000] milliseconds. *)
Definition RESET_AFTER : N := 5 * 60 * 1000.

Definition getErrorMessage (error : Failure) : string :=
  match error with
  | FString s => s
  | FObject o =>
      if err_isError o then default "" (err_message o)
      else if Js.truthy (err_response o ≫= data_error_message)
      then default "" (err_response o ≫= data_error_message)
      else if Js.truthy (err_message o) then default "" (err_message o)
      else "An unexpected error occurred"
  end.

Definition getErrorKey (error : Failure) (context : string) : string :=
  context +:+ ":" +:+ Js.substring0 50 (getErrorMessage error).

Definition isNetworkError (error : Failure) : bool :=
  negb (bool_decide (is_Some (failure_response error))) &&
  (is_literal (failure_code error) "ECONNREFUSED" ||
   is_literal (failure_code error) "ENOTFOUND" ||
   is_literal (failure_code error) "ENETUNREACH" ||
   match failure_message error with
   | Some m => Js.includes "network" m
   | None => false
   end).

Definition isAuthenticationError (error : Failure) : bool :=
  status_is error 401 || status_is error 403.

Definition isRateLimitError (error : Failure) : bool :=
  status_is error 429.

(** The private handler [handleApiError] hands the failure to. *)
Inductive Handler :=
| handleNetworkError
| handleAuthenticationError
| handleRateLimitError
| handleError_generic.

Definition handleApiError (error : Failure) : Handler :=
  if isNetworkError error then handleNetworkError
  else if isAuthenticationError error then handleAuthenticationError
  else if isRateLimitError error then handleRateLimitError
  else handleError_generic.

(** A pending [setTimeout] callback that deletes [timer_key] from
    [errorCount] once the clock reaches [due]. *)
Record Timer := mkTimer {
  due : N;
  timer_key : string
}.

Record State := mkState {
  errorCount : gmap string nat;
  timers : list Timer
}.

(** A new [ErrorHandler]. *)
Definition init : State := mkState ∅ [].

(** [handleError(error, context, showUser)] called at time [now]; the
    boolean tells whether [showErrorToUser] was called. *)
Definition handleError (now : N) (error : Failure) (context : string)
    (showUser : bool) (st : State) : bool * State :=
  let errorKey := getErrorKey error context in
  let currentCount := default 0%nat (errorCount st !! errorKey) in
  (showUser && bool_decide (currentCount < maxErrorsPerType)%nat,
   mkState (<[errorKey := S currentCount]> (errorCount st))
           (timers st ++ [mkTimer (now + RESET_AFTER)%N errorKey])).

(** The event loop reaching time [now]: every timer that is due runs its
    callback, in scheduling order, and is gone. *)
Definition fire (now : N) (st : State) : State :=
  mkState
    (foldl (fun m tm => if (due tm <=? now)%N then delete (timer_key tm) m else m)
           (errorCount st) (timers st))
    (List.filter (fun tm => negb (due tm <=? now)%N) (timers st)).

(** One occurrence: the clock reaches [now], then [handleError] runs. *)
Definition occurrence (now : N) (error : Failure) (context : string)
    (showUser : bool) (st : State) : bool * State :=
  handleError now error context showUser (fire now st).

(** Occurrences of the same failure in the same context at the given times,
    all with [showUser] left at its default. *)
Fixpoint occurrences (times : list N) (error : Failure) (context : string)
    (st : State) : list bool * State :=
  match times with
  | [] => ([], st)
  | t :: times' =>
      let '(shown, st1) := occurrence t error context true st in
      let '(rest, st2) := occurrences times' error context st1 in
      (shown :: rest, st2)
  end.

(** A call [handleError(error, context, showUser)] made at [ev_time]. *)
Record Event := mkEvent {
  ev_time : N;
  ev_error : Failure;
  ev_context : string;
  ev_showUser : bool
}.

Definition ev_key (ev : Event) : string :=
  getErrorKey (ev_error ev) (ev_context ev).

(** Calls of [handleError] with any failures, contexts and flags, each
    after the clock has reached its time. *)
Fixpoint run (events : list Event) (st : State) : list bool * State :=
  match events with
  | [] => ([], st)
  | ev :: events' =>
      let '(shown, st1) :=
        occurrence (ev_time ev) (ev_error ev) (ev_context ev) (ev_showUser ev) st in
      let '(rest, st2) := run events' st1 in
      (shown :: rest, st2)
  end.

(** [getErrorStats()]: the table as an object. *)
Definition getErrorStats (st : State) : gmap string nat := errorCount st.

(** No pending timer of [key] is due before [limit]. *)
Definition quiet_until (key : string) (limit : N) (st : State) : Prop :=
  forall tm, In tm (timers st) -> timer_key tm = key -> (limit <= due tm)%N.

End ErrorHandler.

(** ** Wire types (types/deepseek.ts) *)

Record DeepSeekMessage := mkMessage {
  role : string;
  content : string
}.

Record DeepSeekRequest := mkRequest {
  req_model : string;
  messages : list DeepSeekMessage;
  max_tokens : Z;
  req_temperature : Q
}.

Record DeepSeekChoice := mkChoice {
  index : Z;
  choice_message : DeepSeekMessage;
  finish_reason : string
}.

(** [choices] is optional here because the parsers test [!response.choices]. *)
Record DeepSeekResponse := mkResponse {
  response_id : string;
  choices : option (list DeepSeekChoice)
}.

Record AxiosResponse := mkAxiosResponse {
  resp_status : Z;
  data : DeepSeekResponse
}.

Record CodeCompletionRequest := mkCompletionRequest {
  context : string;
  language : string;
  maxSuggestions : option Z
}.

Record CodeExplanationRequest := mkExplanationRequest {
  expl_code : string;
  expl_language : string;
  includeExamples : bool
}.

Inductive RefactorType := optimize | readability | performance | security.

Record CodeRefactorRequest := mkRefactorRequest {
  refa_code : string;
  refa_language : string;
  refactorType : RefactorType
}.

(** ** DeepSeekClient (services/deepseekClient) *)

(** How an awaited promise ends; [Pending] is a run the fuel did not
    suffice to finish. *)
Inductive Outcome (A : Type) :=
| Resolved (a : A)
| Rejected (e : Failure)
| Pending.

Arguments Resolved {A} a.
Arguments Rejected {A} e.
Arguments Pending {A}.

(** One call of the transport below the interceptors. *)
Record Attempt := mkAttempt {
  sent_at : N;
  sent_to : string;
  authorization : string;
  body : DeepSeekRequest
}.

(** The world the client runs in: [Date.now()], the [retryCount] table,
    the requests handed to the transport and the backoff delays slept,
    both oldest first. *)
Record World := mkWorld {
  now : N;
  retryCount : gmap string nat;
  sent : list Attempt;
  slept : list N
}.

(** The network: for the n-th request sent (from 0), how long it takes in
    milliseconds and how it ends, with a response or with the AxiosError
    the adapter raises. *)
Definition Transport : Type := nat -> N * (AxiosResponse + ErrorObject).

Module DeepSeekClient.

Definition DEFAULT_TIMEOUT : N := 30000.
Definition MAX_RETRIES : nat := 3.

(** A client created at time [t]. *)
Definition init (t : N) : World := mkWorld t ∅ [] [].

Definition shouldRetry (error : Failure) : bool :=
  match failure_response error with
  | None => true
  | Some r => (500 <=? status r) || (status r =? 429)
  end.

(** The response interceptor's rejection handler: it always throws, so the
    promise of [post] is rejected with the [Error] built here. *)
Definition handleApiError (error : ErrorObject) : Failure :=
  match err_response error with
  | Some r =>
      if status r =? 401
      then newError "Invalid API key. Please check your configuration."
      else if status r =? 429
      then newError "Rate limit exceeded. Please try again later."
      else if status r =? 500
      then newError "DeepSeek API server error. Please try again later."
      else newError ("API Error: " +:+
                     (if Js.truthy (data_error_message r)
                      then default "" (data_error_message r)
                      else "Unknown error"))
  | None =>
      if err_request error
      then newError "Network error. Please check your internet connection."
      else newError ("Request error: " +:+ default "undefined" (err_message error))
  end.

Section Client.

Variable config : AIAssistantConfiguration.
Variable transport : Transport.

(** [this.httpClient.post(endpoint, data)] with the interceptors installed
    by [initializeHttpClient]. *)
Definition post (endpoint : string) (payload : DeepSeekRequest) (w : World)
  : (AxiosResponse + Failure) * World :=
  let '(latency, raw) := transport (length (sent w)) in
  let w' := mkWorld (now w + latency)%N (retryCount w)
              (sent w ++ [mkAttempt (now w) endpoint ("Bearer " +:+ apiKey config) payload])
              (slept w) in
  match raw with
  | inl response => (inl response, w')
  | inr error => (inr (handleApiError error), w')
  end.

(** The request [post] hands to the transport in world [w]. *)
Definition attempt_of (endpoint : string) (payload : DeepSeekRequest) (w : World)
  : Attempt :=
  mkAttempt (now w) endpoint ("Bearer " +:+ apiKey config) payload.

(** [`${endpoint}-${Date.now()}`] *)
Definition requestId (endpoint : string) (t : N) : string :=
  endpoint +:+ "-" +:+ pretty t.

(** [await new Promise(resolve => setTimeout(resolve, delay))] *)
Definition sleep (delay : N) (w : World) : World :=
  mkWorld (now w + delay)%N (retryCount w) (sent w) (slept w ++ [delay]).

Definition set_retryCount (m : gmap string nat) (w : World) : World :=
  mkWorld (now w) m (sent w) (slept w).

(** [handleRequestError]; [retry] is the call [this.makeRequest]. *)
Definition handleRequestError
    (retry : string -> DeepSeekRequest -> World -> Outcome AxiosResponse * World)
    (error : Failure) (endpoint : string) (payload : DeepSeekRequest)
    (rid : string) (w : World) : Outcome AxiosResponse * World :=
  let currentRetries := default 0%nat (retryCount w !! rid) in
  if shouldRetry error && bool_decide (currentRetries < MAX_RETRIES)%nat
  then
    let w1 := set_retryCount (<[rid := S currentRetries]> (retryCount w)) w in
    let delay := (2 ^ N.of_nat currentRetries * 1000)%N in
    retry endpoint payload (sleep delay w1)
  else (Rejected error, set_retryCount (delete rid (retryCount w)) w).

Fixpoint makeRequest (fuel : nat) (endpoint : string) (payload : DeepSeekRequest)
    (w : World) : Outcome AxiosResponse * World :=
  match fuel with
  | O => (Pending, w)
  | S fuel' =>
      let rid := requestId endpoint (now w) in
      match post endpoint payload w with
      | (inl response, w1) =>
          (Resolved response, set_retryCount (delete rid (retryCount w1)) w1)
      | (inr error, w1) =>
          handleRequestError (makeRequest fuel') error endpoint payload rid w1
      end
  end.

End Client.

(** The table holds no count under the id of a request to [endpoint] made
    now or later; so it is for a new client and whenever all ids in the
    table come from earlier calls. *)
Definition fresh_ids (endpoint : string) (w : World) : Prop :=
  forall t, (now w <= t)%N -> retryCount w !! requestId endpoint t = None.

(** *** Prompts *)

Definition nl : string := String Js.LF EmptyString.
Definition fence : string := "```".

Definition buildCompletionPrompt (request : CodeCompletionRequest) : string :=
  "Language: " +:+ language request +:+ nl +:+ nl +:+
  "Context:" +:+ nl +:+
  fence +:+ language request +:+ nl +:+
  context request +:+ nl +:+
  fence +:+ nl +:+ nl +:+
  "Please provide " +:+
  pretty (match maxSuggestions request with
          | Some 0 | None => 3
          | Some n => n
          end) +:+
  " relevant code completion suggestions for the cursor position at the end of the context. Return only the code suggestions, one per line.".

Definition buildExplanationPrompt (request : CodeExplanationRequest) : string :=
  "Language: " +:+ expl_language request +:+ nl +:+ nl +:+
  "Code to explain:" +:+ nl +:+
  fence +:+ expl_language request +:+ nl +:+
  expl_code request +:+ nl +:+
  fence +:+ nl +:+ nl +:+
  "Please provide a clear and concise explanation of what this code does" +:+
  (if includeExamples request then ", including examples if helpful" else "") +:+ ".".

Definition refactorInstructions (t : RefactorType) : string :=
  match t with
  | optimize => "Optimize this code for better performance"
  | readability => "Improve code readability and maintainability"
  | performance => "Optimize this code for maximum performance"
  | security => "Improve code security and fix potential vulnerabilities"
  end.

Definition buildRefactorPrompt (request : CodeRefactorRequest) : string :=
  "Language: " +:+ refa_language request +:+ nl +:+ nl +:+
  "Current code:" +:+ nl +:+
  fence +:+ refa_language request +:+ nl +:+
  refa_code request +:+ nl +:+
  fence +:+ nl +:+ nl +:+
  "Task: " +:+ refactorInstructions (refactorType request) +:+ nl +:+ nl +:+
  "Please provide the refactored code with comments explaining the improvements made.".

(** *** Response parsers *)

Definition nonempty (line : string) : bool := (0 <? String.length line)%nat.

Definition parseCompletionResponse (response : DeepSeekResponse) : list string :=
  match choices response with
  | None | Some [] => []
  | Some (c :: _) =>
      take 5 (List.filter nonempty
                (map Js.trim (Js.split_lines (content (choice_message c)))))
  end.

Definition parseExplanationResponse (response : DeepSeekResponse) : string :=
  match choices response with
  | None | Some [] => "No explanation available."
  | Some (c :: _) => Js.trim (content (choice_message c))
  end.

Definition parseRefactorResponse (response : DeepSeekResponse) : string :=
  match choices response with
  | None | Some [] => "No refactoring suggestions available."
  | Some (c :: _) => Js.trim (content (choice_message c))
  end.

(** *** The four public operations *)

Definition CHAT : string := "/chat/completions".

Section Operations.

Variable config : AIAssistantConfiguration.
Variable transport : Transport.

Definition generateCompletion (fuel : nat) (request : CodeCompletionRequest)
    (w : World) : Outcome (list string) * World :=
  let deepseekRequest :=
    mkRequest (model config)
      [mkMessage "system" "You are a helpful coding assistant. Provide code completions based on the context.";
       mkMessage "user" (buildCompletionPrompt request)]
      (Z.min (maxTokens config) 1024)
      (temperature config) in
  match makeRequest config transport fuel CHAT deepseekRequest w with
  | (Resolved response, w') => (Resolved (parseCompletionResponse (data response)), w')
  | (Rejected _, w') => (Rejected (newError "Failed to generate code completion"), w')
  | (Pending, w') => (Pending, w')
  end.

Definition explainCode (fuel : nat) (request : CodeExplanationRequest)
    (w : World) : Outcome string * World :=
  let deepseekRequest :=
    mkRequest (model config)
      [mkMessage "system" "You are a helpful coding assistant. Explain code clearly and concisely.";
       mkMessage "user" (buildExplanationPrompt request)]
      (maxTokens config)
      (temperature config) in
  match makeRequest config transport fuel CHAT deepseekRequest w with
  | (Resolved response, w') => (Resolved (parseExplanationResponse (data response)), w')
  | (Rejected _, w') => (Rejected (newError "Failed to explain code"), w')
  | (Pending, w') => (Pending, w')
  end.

Definition refactorCode (fuel : nat) (request : CodeRefactorRequest)
    (w : World) : Outcome string * World :=
  let deepseekRequest :=
    mkRequest (model config)
      [mkMessage "system" "You are a helpful coding assistant. Refactor code to improve quality while maintaining functionality.";
       mkMessage "user" (buildRefactorPrompt request)]
      (maxTokens config)
      (temperature config) in
  match makeRequest config transport fuel CHAT deepseekRequest w with
  | (Resolved response, w') => (Resolved (parseRefactorResponse (data response)), w')
  | (Rejected _, w') => (Rejected (newError "Failed to refactor code"), w')
  | (Pending, w') => (Pending, w')
  end.

Definition testConnection (fuel : nat) (w : World) : Outcome bool * World :=
  let testRequest :=
    mkRequest (model config)
      [mkMessage "user" "Hello, this is a connection test."]
      10 0 in
  match makeRequest config transport fuel CHAT testRequest w with
  | (Resolved _, w') => (Resolved true, w')
  | (Rejected _, w') => (Resolved false, w')
  | (Pending, w') => (Pending, w')
  end.

(** The request objects the operations build ([deepseekRequest] in the
    first three, [testRequest] in the probe), by themselves. *)
Definition completionBody (request : CodeCompletionRequest) : DeepSeekRequest :=
  mkRequest (model config)
    [mkMessage "system" "You are a helpful coding assistant. Provide code completions based on the context.";
     mkMessage "user" (buildCompletionPrompt request)]
    (Z.min (maxTokens config) 1024)
    (temperature config).

Definition explanationBody (request : CodeExplanationRequest) : DeepSeekRequest :=
  mkRequest (model config)
    [mkMessage "system" "You are a helpful coding assistant. Explain code clearly and concisely.";
     mkMessage "user" (buildExplanationPrompt request)]
    (maxTokens config)
    (temperature config).

Definition refactorBody (request : CodeRefactorRequest) : DeepSeekRequest :=
  mkRequest (model config)
    [mkMessage "system" "You are a helpful coding assistant. Refactor code to improve quality while maintaining functionality.";
     mkMessage "user" (buildRefactorPrompt request)]
    (maxTokens config)
    (temperature config).

Definition probeBody : DeepSeekRequest :=
  mkRequest (model config)
    [mkMessage "user" "Hello, this is a connection test."]
    10 0.

End Operations.

(** [dispose()]: [this.retryCount.clear()] *)
Definition dispose (w : World) : World := set_retryCount ∅ w.

End DeepSeekClient.

(** ** Logger (utils/logger.ts) *)

Module Logger.

Inductive LogLevel := DEBUG | INFO | WARN | ERROR.

(** The numeric value of the enum member. *)
Definition level_value (l : LogLevel) : Z :=
  match l with
  | DEBUG => 0
  | INFO => 1
  | WARN => 2
  | ERROR => 3
  end.

(** [LogLevel[level]] *)
Definition level_name (l : LogLevel) : string :=
  match l with
  | DEBUG => "DEBUG"
  | INFO => "INFO"
  | WARN => "WARN"
  | ERROR => "ERROR"
  end.

(** The logger and what it has written: the lines appended to the output
    channel and those printed on the console, oldest first, and how often
    the channel was revealed by [show(true)]. *)
Record State := mkLogger {
  logLevel : LogLevel;
  appended : list string;
  console : list string;
  revealed : nat
}.

(** The constructor; [development] is [NODE_ENV === 'development']. *)
Definition create (development : bool) : State :=
  mkLogger (if development then DEBUG else INFO) [] [] 0.

Section Log.

(** The environment of a call: whether [NODE_ENV] is ['development'], and
    [new Date().toISOString()]. *)
Variable development : bool.
Variable timestamp : string.

(** The renderings the code takes from the runtime: of a log argument
    ([JSON.stringify(arg, null, 2)] or [String(arg)]), of a non-[Error]
    failure ([JSON.stringify(error, null, 2)]), of a context
    ([JSON.stringify(context)]), of a duration, and the [stack] of an
    [Error]. *)
Variable Arg : Type.
Variable render : Arg -> string.
Variable stringify : Failure -> string.
Variable stack : ErrorObject -> string.

Definition log (level : LogLevel) (message : string) (args : list Arg)
    (lg : State) : State :=
  if level_value level <? level_value (logLevel lg) then lg
  else
    let formattedMessage :=
      "[" +:+ timestamp +:+ "] [" +:+ level_name level +:+ "] " +:+ message in
    let fullMessage :=
      match args with
      | [] => formattedMessage
      | _ => formattedMessage +:+ " " +:+ Js.join " " (map render args)
      end in
    mkLogger (logLevel lg)
      (appended lg ++ [fullMessage])
      (if development then console lg ++ [fullMessage] else console lg)
      (match level with ERROR => S (revealed lg) | _ => revealed lg end).

Definition debug (message : string) (args : list Arg) (lg : State) : State :=
  log DEBUG message args lg.

Definition info (message : string) (args : list Arg) (lg : State) : State :=
  log INFO message args lg.

Definition warn (message : string) (args : list Arg) (lg : State) : State :=
  log WARN message args lg.

(** [error(message, error?)]; a missing [error] and the empty string are
    falsy and add no details. *)
Definition error (message : string) (err : option Failure) (lg : State) : State :=
  let errorDetails :=
    match err with
    | None | Some (FString EmptyString) => EmptyString
    | Some (FObject o) =>
        if err_isError o
        then String Js.LF "Error: " +:+ default "undefined" (err_message o)
             +:+ String Js.LF "Stack: " +:+ stack o
        else String Js.LF "Details: " +:+ stringify (FObject o)
    | Some f => String Js.LF "Details: " +:+ stringify f
    end in
  log ERROR (message +:+ errorDetails) [] lg.

(** [logApiCall(method, url, duration?)]; a missing duration and 0 are
    falsy. *)
Definition logApiCall (method url : string) (duration : option Z) (lg : State)
  : State :=
  let durationText :=
    match duration with
    | None | Some 0 => EmptyString
    | Some d => " (" +:+ pretty d +:+ "ms)"
    end in
  debug ("API Call: " +:+ method +:+ " " +:+ url +:+ durationText) [] lg.

Definition setLogLevel (level : LogLevel) (lg : State) : State :=
  info ("Log level set to: " +:+ level_name level) []
    (mkLogger level (appended lg) (console lg) (revealed lg)).

End Log.

End Logger.

(** * Inputs used in the examples below *)

Module Sample.

(** A configuration that passes every check. *)
Definition goodConfig : AIAssistantConfiguration :=
  mkConfig "sk-0123456789abcdefghij" "deepseek-coder" 2048 (1 # 10).

(** The defaults of [getConfiguration]: the API key is empty. *)
Definition defaultConfig : AIAssistantConfiguration :=
  mkConfig "" "deepseek-coder" 2048 (1 # 10).

(** A successful answer with one choice. *)
Definition okResponse : AxiosResponse :=
  mkAxiosResponse 200
    (mkResponse "cmpl-1" (Some [mkChoice 0 (mkMessage "assistant" "x = 1") "stop"])).

(** A network that answers every request after 120 ms. *)
Definition okTransport : Transport := fun _ => (120%N, inl okResponse).

Definition completionRequest : CodeCompletionRequest :=
  mkCompletionRequest "x = " "python" (Some 3).

Definition payload : DeepSeekRequest :=
  mkRequest "deepseek-coder" [mkMessage "user" "Hello, this is a connection test."] 10 0.

(** Some [Date.now()]. *)
Definition T0 : N := 1700000000000.

(** A client whose table already counts three retries under the request id
    of a call made at [T0]; several calls of the same endpoint within one
    millisecond share that id. *)
Definition exhausted : World :=
  mkWorld T0 {[ DeepSeekClient.requestId DeepSeekClient.CHAT T0 := 3%nat ]} [] [].

(** A failure thrown as an [Error] and the context it is handled in. *)
Definition boom : Failure := newError "boom".
Definition ctx : string := "completion".

End Sample.

(** The two issues [validateConfiguration] raises about [maxTokens]. *)
Definition maxTokensRangeError : ConfigurationError :=
  mkIssue "maxTokens" "Max tokens must be between 100 and 8192" SeverityError.

Definition maxTokensPerformanceWarning : ConfigurationError :=
  mkIssue "maxTokens" "High token count may impact performance" SeverityWarning.

(** ** The six-way classification of the specification

    The sources have no function of this shape; the definition follows the
    wording of the specification and is there to be compared with
    [ErrorHandler.handleApiError]. *)

Inductive ErrorClassification :=
| Network
| Authentication
| RateLimit
| ServerFault
| ClientFault
| Unknown.

Definition classify_spec (failure : Failure) : ErrorClassification :=
  match failure_response failure with
  | None =>
      if is_literal (failure_code failure) "ECONNREFUSED"
         || is_literal (failure_code failure) "ENOTFOUND"
         || is_literal (failure_code failure) "ENETUNREACH"
         || match failure_message failure with
            | Some m => Js.includes "network" m
            | None => false
            end
      then Network else Unknown
  | Some r =>
      if (status r =? 401) || (status r =? 403) then Authentication
      else if status r =? 429 then RateLimit
      else if 500 <=? status r then ServerFault
      else if (400 <=? status r) && (status r <? 500) then ClientFault
      else Unknown
  end.

(** The handler a classification would select, were the dispatch written
    over the classification. *)
Definition handler_of (c : ErrorClassification) : ErrorHandler.Handler :=
  match c with
  | Network => ErrorHandler.handleNetworkError
  | Authentication => ErrorHandler.handleAuthenticationError
  | RateLimit => ErrorHandler.handleRateLimitError
  | ServerFault | ClientFault | Unknown => ErrorHandler.handleError_generic
  end.

(** ** Transports and operations *)

(** A network on which every request fails: the n-th one after [fst (f n)]
    milliseconds with the error [snd (f n)]. *)
Definition failing (f : nat -> N * ErrorObject) : Transport :=
  fun n => (fst (f n), inr (snd (f n))).

(** A network on which the first two requests fail and every later one is
    answered with [response] after [latency] milliseconds. *)
Definition failing_twice (f : nat -> N * ErrorObject) (latency : N)
    (response : AxiosResponse) : Transport :=
  fun n => match n with
           | 0%nat | 1%nat => (fst (f n), inr (snd (f n)))
           | _ => (latency, inl response)
           end.

(** The AxiosError of a response with the given status and API error text. *)
Definition httpError (st : Z) (msg : string) : ErrorObject :=
  mkErrorObject true (Some "ERR_BAD_RESPONSE")
    (Some ("Request failed with status code " +:+ pretty st))
    (Some (mkErrorResponse st (Some msg))) true.

(** The AxiosError of a refused connection. *)
Definition connectionRefused : ErrorObject :=
  mkErrorObject true (Some "ECONNREFUSED")
    (Some "connect ECONNREFUSED 127.0.0.1:443") None true.

Inductive Operation :=
| Completion (request : CodeCompletionRequest)
| Explanation (request : CodeExplanationRequest)
| Refactor (request : CodeRefactorRequest)
| ConnectivityProbe.

(** What the caller of an operation gets: nothing yet, a value (whose
    content does not matter here), or an error. *)
Inductive Surfaced :=
| StillPending
| Returned
| Thrown (e : Failure).

Definition surface {A : Type} (o : Outcome A) : Surfaced :=
  match o with
  | Pending => StillPending
  | Resolved _ => Returned
  | Rejected e => Thrown e
  end.

Definition perform (config : AIAssistantConfiguration) (transport : Transport)
    (fuel : nat) (op : Operation) (w : World) : Surfaced * World :=
  match op with
  | Completion r =>
      let '(o, w') := DeepSeekClient.generateCompletion config transport fuel r w in
      (surface o, w')
  | Explanation r =>
      let '(o, w') := DeepSeekClient.explainCode config transport fuel r w in
      (surface o, w')
  | Refactor r =>
      let '(o, w') := DeepSeekClient.refactorCode config transport fuel r w in
      (surface o, w')
  | ConnectivityProbe =>
      let '(o, w') := DeepSeekClient.testConnection config transport fuel w in
      (surface o, w')
  end.

(** The fixed message an operation throws when its request fails. *)
Definition failureMessage (op : Operation) : option string :=
  match op with
  | Completion _ => Some "Failed to generate code completion"
  | Explanation _ => Some "Failed to explain code"
  | Refactor _ => Some "Failed to refactor code"
  | ConnectivityProbe => None
  end.

(** * Properties *)

(** ** Configuration validator *)

Section Validator.

Import ConfigurationManager.

Lemma in_errors (c : AIAssistantConfiguration) (e : ConfigurationError) :
  In e (errors (validateConfiguration c)) <->
  In e (collected c) /\ severity e = SeverityError.
Proof.
  unfold validateConfiguration; cbn [errors]. rewrite filter_In.
  unfold hasSeverity. destruct (severity e); cbn; intuition congruence.
Qed.

Lemma in_warnings (c : AIAssistantConfiguration) (e : ConfigurationError) :
  In e (warnings (validateConfiguration c)) <->
  In e (collected c) /\ severity e = SeverityWarning.
Proof.
  unfold validateConfiguration; cbn [warnings]. rewrite filter_In.
  unfold hasSeverity. destruct (severity e); cbn; intuition congruence.
Qed.

Lemma in_collected (c : AIAssistantConfiguration) (e : ConfigurationError) :
  In e (collected c) <->
  In e (apiKeyIssues c) \/ In e (modelIssues c) \/ In e (maxTokensRangeIssues c)
  \/ In e (temperatureIssues c) \/ In e (performanceIssues c).
Proof. unfold collected. rewrite !in_app_iff. tauto. Qed.

(** The invariant of the data model: [isValid] holds exactly when no
    collected issue has severity error. *)
Lemma isValid_iff (c : AIAssistantConfiguration) :
  isValid (validateConfiguration c) = true <-> errors (validateConfiguration c) = [].
Proof.
  unfold validateConfiguration; cbn [isValid errors].
  induction (collected c) as [|e l IH]; cbn; [tauto|].
  destruct (hasSeverity SeverityError e); cbn; [split; discriminate | exact IH].
Qed.

Lemma isValid_false_of_error (c : AIAssistantConfiguration) (e : ConfigurationError) :
  In e (errors (validateConfiguration c)) -> isValid (validateConfiguration c) = false.
Proof.
  intros Hin. destruct (isValid (validateConfiguration c)) eqn:E; [|reflexivity].
  apply isValid_iff in E. rewrite E in Hin. destruct Hin.
Qed.

Lemma range_error_iff (c : AIAssistantConfiguration) :
  In maxTokensRangeError (errors (validateConfiguration c)) <->
  maxTokens c < 100 \/ 8192 < maxTokens c.
Proof.
  rewrite in_errors, in_collected. unfold maxTokensRangeIssues.
  split.
  - intros [H _].
    destruct (maxTokens c <? 100) eqn:E1; [left; lia|].
    destruct (8192 <? maxTokens c) eqn:E2; [right; lia|]. cbn in H.
    unfold apiKeyIssues, modelIssues, temperatureIssues, performanceIssues in H.
    repeat match type of H with context [if ?b then _ else _] => destruct b end;
      cbn in H; unfold maxTokensRangeError in H; intuition discriminate.
  - intros H. split; [|reflexivity]. right; right; left.
    replace ((maxTokens c <? 100) || (8192 <? maxTokens c)) with true; [now left|].
    symmetry. apply orb_true_iff. lia.
Qed.

Lemma performance_warning_iff (c : AIAssistantConfiguration) :
  In maxTokensPerformanceWarning (warnings (validateConfiguration c)) <->
  4096 < maxTokens c.
Proof.
  rewrite in_warnings, in_collected. unfold performanceIssues.
  split.
  - intros [H _]. destruct (4096 <? maxTokens c) eqn:E; [lia|]. cbn in H.
    unfold apiKeyIssues, modelIssues, temperatureIssues, maxTokensRangeIssues in H.
    repeat match type of H with context [if ?b then _ else _] => destruct b end;
      cbn in H; unfold maxTokensPerformanceWarning in H; intuition discriminate.
  - intros H. split; [|reflexivity]. do 4 right.
    replace (4096 <? maxTokens c) with true by (symmetry; lia). now left.
Qed.

(** Every warning is about the API key format or is the performance warning. *)
Lemma warnings_shape (c : AIAssistantConfiguration) (e : ConfigurationError) :
  In e (warnings (validateConfiguration c)) ->
  (field e = "apiKey" /\ isValidApiKeyFormat (apiKey c) = false) \/
  (e = maxTokensPerformanceWarning /\ 4096 < maxTokens c).
Proof.
  rewrite in_warnings, in_collected.
  unfold apiKeyIssues, modelIssues, maxTokensRangeIssues, temperatureIssues,
    performanceIssues.
  intros [H Hsev].
  destruct (isValidApiKeyFormat (apiKey c)) eqn:Ek;
  destruct (4096 <? maxTokens c) eqn:Ep; cbn [negb] in H;
  repeat match type of H with context [if ?b then _ else _] => destruct b end;
    cbn in H;
    repeat match type of H with
      | _ \/ _ => destruct H as [H|H]
      | False => destruct H
      end;
    subst e; cbn in Hsev; try discriminate;
    first [left; split; reflexivity | right; split; [reflexivity | lia]].
Qed.

(** [isValid] does not look at [maxTokens] beyond the range check. *)
Lemma isValid_in_range (c : AIAssistantConfiguration) (n m : Z) :
  100 <= n <= 8192 -> 100 <= m <= 8192 ->
  isValid (validateConfiguration (set_maxTokens n c)) =
  isValid (validateConfiguration (set_maxTokens m c)).
Proof.
  intros Hn Hm. unfold validateConfiguration, collected; cbn [isValid].
  rewrite !existsb_app.
  unfold maxTokensRangeIssues, performanceIssues, set_maxTokens; cbn [maxTokens].
  replace ((n <? 100) || (8192 <? n)) with false
    by (symmetry; apply orb_false_iff; lia).
  replace ((m <? 100) || (8192 <? m)) with false
    by (symmetry; apply orb_false_iff; lia).
  unfold apiKeyIssues, modelIssues, temperatureIssues; cbn [apiKey model temperature].
  destruct (4096 <? n), (4096 <? m); cbn; rewrite ?orb_false_r; reflexivity.
Qed.

Lemma set_maxTokens_same (c : AIAssistantConfiguration) :
  set_maxTokens (maxTokens c) c = c.
Proof. destruct c; reflexivity. Qed.

(** C7. Whenever [maxTokens] is below 100 or above 8192 the result is invalid
    and lists an error-severity issue on field [maxTokens]. At 4096 no
    performance warning exists (the only warning there can be is the one on
    the API key format, so a well-formed key gives no warning at all). At
    4097 the performance warning is listed and validity is what it is at
    4096. Above 8192 the range error and the performance warning are both
    listed. *)
Theorem validateConfiguration_maxTokens (c : AIAssistantConfiguration) :
  let r := validateConfiguration c in
  ((maxTokens c < 100 \/ 8192 < maxTokens c) ->
     isValid r = false /\
     exists e, In e (errors r) /\ field e = "maxTokens" /\ severity e = SeverityError) /\
  (maxTokens c = 4096 ->
     (forall e, In e (warnings r) -> field e = "apiKey") /\
     (isValidApiKeyFormat (apiKey c) = true -> warnings r = [])) /\
  (maxTokens c = 4097 ->
     In maxTokensPerformanceWarning (warnings r) /\
     ~ In maxTokensPerformanceWarning (errors r) /\
     isValid r = isValid (validateConfiguration (set_maxTokens 4096 c))) /\
  (8192 < maxTokens c ->
     In maxTokensRangeError (errors r) /\
     In maxTokensPerformanceWarning (warnings r)).
Proof.
  intros r; subst r. repeat split.
  - apply isValid_false_of_error with maxTokensRangeError.
    now apply range_error_iff.
  - exists maxTokensRangeError. split; [now apply range_error_iff|split; reflexivity].
  - intros e He. apply warnings_shape in He as [[Hf _]|[_ Hgt]]; [exact Hf|lia].
  - intros Hk. destruct (warnings (validateConfiguration c)) as [|e l] eqn:E; [reflexivity|].
    assert (He : In e (warnings (validateConfiguration c))) by (rewrite E; now left).
    apply warnings_shape in He as [[_ Hbad]|[_ Hgt]]; [congruence|lia].
  - apply performance_warning_iff. lia.
  - rewrite in_errors. intros [_ Hsev]. discriminate.
  - rewrite <- (set_maxTokens_same c) at 1. rewrite H.
    apply isValid_in_range; lia.
  - apply range_error_iff. now right.
  - apply performance_warning_iff. lia.
Qed.

End Validator.

Lemma validateConfiguration_maxTokens_witness :
  isValid (ConfigurationManager.validateConfiguration
             (set_maxTokens 50 Sample.goodConfig)) = false /\
  warnings (ConfigurationManager.validateConfiguration
              (set_maxTokens 4096 Sample.goodConfig)) = [] /\
  isValid (ConfigurationManager.validateConfiguration
             (set_maxTokens 4097 Sample.goodConfig)) = true /\
  In maxTokensPerformanceWarning
     (warnings (ConfigurationManager.validateConfiguration
                  (set_maxTokens 9000 Sample.goodConfig))).
Proof.
  split; [|split; [|split]].
  - apply (validateConfiguration_maxTokens (set_maxTokens 50 Sample.goodConfig)).
    left. reflexivity.
  - apply (validateConfiguration_maxTokens (set_maxTokens 4096 Sample.goodConfig));
      reflexivity.
  - destruct (validateConfiguration_maxTokens (set_maxTokens 4097 Sample.goodConfig))
      as (_ & _ & H & _).
    destruct (H eq_refl) as (_ & _ & ->). reflexivity.
  - apply (validateConfiguration_maxTokens (set_maxTokens 9000 Sample.goodConfig)).
    reflexivity.
Defined.

(** ** Response parsers *)

Section Parsers.

Import DeepSeekClient.

Lemma In_take {A : Type} (x : A) (n : nat) (l : list A) :
  In x (take n l) -> In x l.
Proof.
  revert l; induction n as [|n IH]; intros [|y l]; cbn; try tauto.
  intros [->|H]; [now left | right; now apply IH].
Qed.

Lemma nonempty_spec (s : string) : nonempty s = true <-> s <> "".
Proof.
  destruct s; cbn; split; try congruence; try discriminate; reflexivity.
Qed.

Lemma split_lines_nonnil (s : string) : Js.split_lines s <> [].
Proof.
  induction s as [|c s IH]; cbn; [discriminate|].
  destruct (Ascii.eqb c Js.LF); [discriminate|].
  destruct (Js.split_lines s); [contradiction|discriminate].
Qed.

Lemma join_split_lines (s : string) : Js.join_lines (Js.split_lines s) = s.
Proof.
  induction s as [|c s IH]; [reflexivity|].
  cbn [Js.split_lines]. pose proof (split_lines_nonnil s) as Hn.
  destruct (Ascii.eqb_spec c Js.LF) as [->|Hc];
    destruct (Js.split_lines s) as [|l ls]; try contradiction.
  - change (Js.join_lines ("" :: l :: ls))
      with (String Js.LF (Js.join_lines (l :: ls))).
    now rewrite IH.
  - destruct ls as [|l' ls]; rewrite <- IH; reflexivity.
Qed.

(** Trimming leaves no white space at either end. *)
Lemma trimStart_head (s : string) (c : ascii) (r : string) :
  Js.trimStart s = String c r -> Js.isWhiteSpace c = false.
Proof.
  induction s as [|d s IH]; cbn; [discriminate|].
  destruct (Js.isWhiteSpace d) eqn:E; [exact IH|].
  intros [= <- _]. exact E.
Qed.

Lemma trimEnd_cons (c : ascii) (s : string) :
  Js.trimEnd (String c s) =
  match Js.trimEnd s with
  | EmptyString => if Js.isWhiteSpace c then EmptyString else String c EmptyString
  | r => String c r
  end.
Proof. reflexivity. Qed.

Lemma trimEnd_idem (s : string) : Js.trimEnd (Js.trimEnd s) = Js.trimEnd s.
Proof.
  induction s as [|c s IH]; [reflexivity|]. rewrite trimEnd_cons.
  destruct (Js.trimEnd s) as [|d r] eqn:E.
  - destruct (Js.isWhiteSpace c) eqn:Ec; [reflexivity|].
    rewrite trimEnd_cons, Ec. reflexivity.
  - rewrite trimEnd_cons, IH. reflexivity.
Qed.

Lemma trimEnd_head (s : string) (c : ascii) (r : string) :
  Js.trimEnd s = String c r -> exists s', s = String c s'.
Proof.
  destruct s as [|d s]; cbn; [discriminate|].
  destruct (Js.trimEnd s); [destruct (Js.isWhiteSpace d)|];
    intros [= <- _] || discriminate; eauto.
Qed.

Lemma trimStart_trimEnd (s : string) :
  Js.trimStart (Js.trimEnd (Js.trimStart s)) = Js.trimEnd (Js.trimStart s).
Proof.
  destruct (Js.trimEnd (Js.trimStart s)) as [|c r] eqn:E; [reflexivity|].
  destruct (trimEnd_head _ _ _ E) as [s' Hs'].
  apply trimStart_head in Hs'. cbn. now rewrite Hs'.
Qed.

Lemma trim_idem (s : string) : Js.trim (Js.trim s) = Js.trim s.
Proof.
  unfold Js.trim. rewrite trimStart_trimEnd. apply trimEnd_idem.
Qed.

(** C10. With [choices] absent or empty the completion parser returns the
    empty list while the explanation and refactor parsers return their
    sentinel strings. With a first choice the completion parser returns at
    most five strings; each is non-empty, is the trimmed form of a line of
    that choice's content, and is itself trimmed. *)
Theorem parse_responses (response : DeepSeekResponse) :
  ((choices response = None \/ choices response = Some []) ->
     parseCompletionResponse response = [] /\
     parseExplanationResponse response = "No explanation available." /\
     parseRefactorResponse response = "No refactoring suggestions available.") /\
  (forall c cs, choices response = Some (c :: cs) ->
     (length (parseCompletionResponse response) <= 5)%nat /\
     forall s, In s (parseCompletionResponse response) ->
       s <> "" /\ Js.trim s = s /\
       exists line, In line (Js.split_lines (content (choice_message c))) /\
                    s = Js.trim line).
Proof.
  unfold parseCompletionResponse, parseExplanationResponse, parseRefactorResponse.
  split.
  - intros [-> | ->]; repeat split; reflexivity.
  - intros c cs ->. split; [apply firstn_le_length|].
    intros s Hs. apply In_take in Hs. apply filter_In in Hs as [Hs Hne].
    apply in_map_iff in Hs as (line & <- & Hline).
    split; [now apply nonempty_spec|]. split; [apply trim_idem|].
    exists line. split; [exact Hline | reflexivity].
Qed.

Lemma parse_responses_witness :
  parseCompletionResponse (mkResponse "cmpl-0" None) = [] /\
  (length (parseCompletionResponse (data Sample.okResponse)) <= 5)%nat.
Proof.
  split.
  - apply (parse_responses (mkResponse "cmpl-0" None)). left. reflexivity.
  - eapply (parse_responses (data Sample.okResponse)). reflexivity.
Defined.

End Parsers.

(** ** Error dispatch *)

Section Dispatch.

Import ErrorHandler.

Lemma status_is_Some (failure : Failure) (r : ErrorResponse) (n : Z) :
  failure_response failure = Some r -> status_is failure n = (status r =? n).
Proof. unfold status_is. now intros ->. Qed.

Lemma status_is_None (failure : Failure) (n : Z) :
  failure_response failure = None -> status_is failure n = false.
Proof. unfold status_is. now intros ->. Qed.

(** A failure that carries a response is never a network error. *)
Lemma isNetworkError_response (failure : Failure) (r : ErrorResponse) :
  failure_response failure = Some r -> isNetworkError failure = false.
Proof.
  unfold isNetworkError. intros ->.
  rewrite bool_decide_eq_true_2 by (now exists r). reflexivity.
Qed.

(** C6 as the sources have it. The dispatch of [handleApiError] is a
    function of the failure, first match first: network, then
    authentication (401, 403), then rate limit (429), and the generic
    handler for everything else. It is the six-way classification with
    ServerFault, ClientFault and Unknown merged into the generic handler. *)
Theorem handleApiError_dispatch (failure : Failure) :
  handleApiError failure = handler_of (classify_spec failure).
Proof.
  unfold handleApiError, classify_spec.
  destruct (failure_response failure) as [r|] eqn:Hr.
  - rewrite (isNetworkError_response _ _ Hr).
    unfold isAuthenticationError, isRateLimitError.
    rewrite !(status_is_Some _ _ _ Hr).
    destruct ((status r =? 401) || (status r =? 403)); [reflexivity|].
    destruct (status r =? 429); [reflexivity|].
    destruct (500 <=? status r); [reflexivity|].
    destruct ((400 <=? status r) && (status r <? 500)); reflexivity.
  - unfold isNetworkError, isAuthenticationError, isRateLimitError.
    rewrite Hr, !(status_is_None _ _ Hr).
    rewrite bool_decide_eq_false_2 by (intros [? [=]]).
    cbn [negb andb orb].
    match goal with |- context [if ?b then _ else _] => destruct b end; reflexivity.
Qed.

(** Statuses 503 and 418 and an object without any of the inspected
    properties belong to three different classes, yet the dispatch sends
    all three to the generic handler. *)
Lemma handleApiError_merges_classes :
  classify_spec (FObject (httpError 503 "overloaded")) = ServerFault /\
  classify_spec (FObject (httpError 418 "teapot")) = ClientFault /\
  classify_spec (FObject (mkErrorObject false None None None false)) = Unknown /\
  handleApiError (FObject (httpError 503 "overloaded")) = handleError_generic /\
  handleApiError (FObject (httpError 418 "teapot")) = handleError_generic /\
  handleApiError (FObject (mkErrorObject false None None None false))
    = handleError_generic.
Proof. repeat split; reflexivity. Qed.

(** The cases the two agree on, at the inputs the specification names. *)
Example handleApiError_named_cases :
  handleApiError (FObject connectionRefused) = handleNetworkError /\
  handleApiError (FObject (httpError 401 "bad key")) = handleAuthenticationError /\
  handleApiError (FObject (httpError 403 "forbidden")) = handleAuthenticationError /\
  handleApiError (FObject (httpError 429 "slow down")) = handleRateLimitError /\
  handleApiError (FString "network down") = handleError_generic.
Proof. repeat split; reflexivity. Qed.

End Dispatch.

(** ** Notification throttle *)

Section Throttle.

Import ErrorHandler.

Variable error : Failure.
Variable context : string.

Local Abbreviation k := (getErrorKey error context).

(** [substring(0, n)] is the prefix of length [n], or the whole string when
    it is shorter. *)
Lemma substring0_length (n : nat) (s : string) :
  String.length (Js.substring0 n s) = Nat.min n (String.length s).
Proof.
  unfold Js.substring0. revert s; induction n as [|n IH]; intros [|c s]; cbn;
    try reflexivity.
  now rewrite IH.
Qed.

Lemma substring0_prefix (n : nat) (s : string) :
  String.prefix (Js.substring0 n s) s = true.
Proof.
  unfold Js.substring0. revert s; induction n as [|n IH]; intros [|c s]; cbn;
    try reflexivity.
  rewrite IH. now destruct (ascii_dec c c).
Qed.

(** One call of [handleError]: the stored count goes up by one, from zero
    when the key is absent, and the user is told only if the count before
    was below five. *)
Lemma handleError_step (now : N) (showUser : bool) (st : State) :
  let n := default 0%nat (errorCount st !! k) in
  fst (handleError now error context showUser st)
    = showUser && bool_decide (n < 5)%nat /\
  errorCount (snd (handleError now error context showUser st)) !! k = Some (S n) /\
  timers (snd (handleError now error context showUser st))
    = timers st ++ [mkTimer (now + RESET_AFTER)%N k].
Proof.
  cbn. split; [reflexivity|]. split; [apply lookup_insert_eq | reflexivity].
Qed.

(** Timers of other keys, and timers not yet due, leave the count alone. *)
Lemma fire_lookup_keep (now : N) (st : State) :
  (forall tm, In tm (timers st) -> timer_key tm = k -> (now < due tm)%N) ->
  errorCount (fire now st) !! k = errorCount st !! k.
Proof.
  unfold fire; cbn [errorCount]. generalize (errorCount st).
  induction (timers st) as [|tm l IH]; intros m Hl; [reflexivity|].
  cbn [foldl]. rewrite IH by (intros; apply Hl; [now right | assumption]).
  destruct (due tm <=? now)%N eqn:E; [|reflexivity].
  apply lookup_delete_ne. intros Hk.
  specialize (Hl tm (or_introl eq_refl) Hk). apply N.leb_le in E. lia.
Qed.

Lemma fire_timers_In (now : N) (st : State) (tm : Timer) :
  In tm (timers (fire now st)) -> In tm (timers st).
Proof. unfold fire; cbn [timers]. rewrite filter_In. tauto. Qed.

Lemma occurrence_window (t0 t : N) (st : State) :
  quiet_until k (t0 + RESET_AFTER) st -> (t0 <= t < t0 + RESET_AFTER)%N ->
  let n := default 0%nat (errorCount st !! k) in
  fst (occurrence t error context true st) = bool_decide (n < 5)%nat /\
  errorCount (snd (occurrence t error context true st)) !! k = Some (S n) /\
  quiet_until k (t0 + RESET_AFTER) (snd (occurrence t error context true st)).
Proof.
  intros Hq Ht n. unfold occurrence.
  assert (Hkeep : errorCount (fire t st) !! k = errorCount st !! k).
  { apply fire_lookup_keep. intros tm Hin Hk. specialize (Hq tm Hin Hk). lia. }
  destruct (handleError_step t true (fire t st)) as (Hs & Hc & Htm).
  rewrite Hkeep in Hs, Hc. repeat split; [exact Hs | exact Hc |].
  intros tm Hin Hk. rewrite Htm in Hin. apply in_app_iff in Hin as [Hin|[<-|[]]].
  - apply Hq; [now apply fire_timers_In in Hin | exact Hk].
  - cbn. lia.
Qed.

Lemma occurrences_cons (t : N) (times : list N) (st : State) :
  occurrences (t :: times) error context st =
  (fst (occurrence t error context true st)
     :: fst (occurrences times error context (snd (occurrence t error context true st))),
   snd (occurrences times error context (snd (occurrence t error context true st)))).
Proof.
  cbn [occurrences]. destruct (occurrence t error context true st) as [shown st1].
  cbn [fst snd]. now destruct (occurrences times error context st1).
Qed.

Lemma occurrences_window (t0 : N) (times : list N) (st : State) :
  quiet_until k (t0 + RESET_AFTER) st ->
  Forall (fun t => (t0 <= t < t0 + RESET_AFTER)%N) times ->
  let n := default 0%nat (errorCount st !! k) in
  fst (occurrences times error context st)
    = map (fun i => bool_decide (n + i < 5)%nat) (seq 0 (length times)) /\
  (times <> [] ->
   errorCount (snd (occurrences times error context st)) !! k
     = Some (n + length times)%nat) /\
  quiet_until k (t0 + RESET_AFTER) (snd (occurrences times error context st)).
Proof.
  revert st. induction times as [|t times IH]; intros st Hq Hall n.
  - split; [reflexivity | split; [congruence | exact Hq]].
  - apply Forall_cons_iff in Hall as [Ht Hall].
    destruct (occurrence_window t0 t st Hq Ht) as (Hs & Hc & Hq').
    rewrite occurrences_cons. cbn [fst snd].
    set (st1 := snd (occurrence t error context true st)) in *.
    destruct (IH st1 Hq' Hall) as (IHs & IHc & IHq). rewrite Hc in IHs, IHc.
    cbn [default] in IHs, IHc. subst n. cbv [Datatypes.id] in *.
    set (n := from_option _ _ (errorCount st !! k)) in *. clearbody n.
    split; [|split; [|exact IHq]].
    + cbn [length seq map]. rewrite Hs, IHs, <- seq_shift, map_map.
      f_equal; [now rewrite Nat.add_0_r|].
      apply map_ext. intros i. now rewrite Nat.add_succ_r.
    + intros _. destruct times as [|t' times'].
      * cbn [occurrences snd length]. rewrite Hc. f_equal. clear. lia.
      * rewrite IHc by discriminate. f_equal. cbn [length]. clear. lia.
Qed.

(** A pending timer stays pending while the clock is short of its time. *)
Lemma occurrences_keep_timer (tm : Timer) (times : list N) (st : State) :
  In tm (timers st) ->
  Forall (fun t => (t < due tm)%N) times ->
  In tm (timers (snd (occurrences times error context st))).
Proof.
  revert st. induction times as [|t times IH]; intros st Hin Hall; [exact Hin|].
  apply Forall_cons_iff in Hall as [Ht Hall].
  rewrite occurrences_cons. cbn [snd]. apply IH; [|exact Hall].
  unfold occurrence.
  destruct (handleError_step t true (fire t st)) as (_ & _ & ->).
  apply in_app_iff. left. unfold fire; cbn [timers]. apply filter_In.
  split; [exact Hin|]. apply negb_true_iff, N.leb_gt. exact Ht.
Qed.

(** Once a timer of the key is due, firing leaves no record of the key. *)
Lemma fire_lookup_reset (now : N) (st : State) (tm : Timer) :
  In tm (timers st) -> timer_key tm = k -> (due tm <= now)%N ->
  errorCount (fire now st) !! k = None.
Proof.
  unfold fire; cbn [errorCount]. generalize (errorCount st).
  induction (timers st) as [|tm' l IH]; intros m Hin Hk Hdue; [destruct Hin|].
  cbn [foldl]. destruct Hin as [->|Hin]; [|now apply IH].
  apply N.leb_le in Hdue. rewrite Hdue, Hk.
  assert (Hnone : delete k m !! k = None) by apply lookup_delete_eq.
  revert Hnone. generalize (delete k m). clear.
  induction l as [|tm l IH]; intros m Hm; [exact Hm|].
  cbn [foldl]. apply IH. destruct (due tm <=? now)%N; [|exact Hm].
  destruct (decide (timer_key tm = k)) as [->|Hne].
  - apply lookup_delete_eq.
  - now rewrite lookup_delete_ne.
Qed.

(** The throttle on a quiet handler. Take occurrences of one failure in
    one context, all within five minutes of the first ([t0]), on a handler
    that holds no record of the key and no timer of the key due inside that
    window. The key is the context, a colon and the first 50 characters of
    the extracted message. The i-th occurrence (from 0) notifies the user
    exactly when [i < 5]. After that the stored count equals the number of
    occurrences. *)
Theorem notification_throttle (t0 : N) (times : list N) (st : State) :
  errorCount st !! k = None ->
  quiet_until k (t0 + RESET_AFTER) st ->
  Forall (fun t => (t0 <= t < t0 + RESET_AFTER)%N) times ->
  k = context +:+ ":" +:+ Js.substring0 50 (getErrorMessage error) /\
  String.length (Js.substring0 50 (getErrorMessage error))
    = Nat.min 50 (String.length (getErrorMessage error)) /\
  String.prefix (Js.substring0 50 (getErrorMessage error)) (getErrorMessage error)
    = true /\
  fst (occurrences times error context st)
    = map (fun i => bool_decide (i < 5)%nat) (seq 0 (length times)) /\
  (times <> [] ->
   errorCount (snd (occurrences times error context st)) !! k
     = Some (length times)).
Proof.
  intros Habsent Hq Hall.
  split; [reflexivity|]. split; [apply substring0_length|].
  split; [apply substring0_prefix|].
  destruct (occurrences_window t0 times st Hq Hall) as (Hs & Hc & _).
  rewrite Habsent in Hs, Hc. exact (conj Hs Hc).
Qed.

(** The part of the fixed time-to-live that holds. A record made by an
    occurrence at [t0], on a handler without a record of the key and
    without a timer of the key due before [t0] plus five minutes, is there
    with its full count at every time before that, and is gone from then
    on; further occurrences inside the window change neither. *)
Lemma first_record_lifetime (t0 : N) (times : list N) (st : State) (t : N) :
  errorCount st !! k = None ->
  quiet_until k (t0 + RESET_AFTER) st ->
  Forall (fun u => (t0 <= u < t0 + RESET_AFTER)%N) times ->
  let st' := snd (occurrences (t0 :: times) error context st) in
  ((t < t0 + RESET_AFTER)%N ->
     errorCount (fire t st') !! k = Some (S (length times))) /\
  ((t0 + RESET_AFTER <= t)%N -> errorCount (fire t st') !! k = None).
Proof.
  intros Habsent Hq Hall st'.
  assert (Hall' : Forall (fun u => (t0 <= u < t0 + RESET_AFTER)%N) (t0 :: times)).
  { constructor; [|exact Hall]. unfold RESET_AFTER. lia. }
  destruct (occurrences_window t0 (t0 :: times) st Hq Hall') as (_ & Hc & Hq').
  rewrite Habsent in Hc. specialize (Hc ltac:(discriminate)).
  fold st' in Hc, Hq'. split.
  - intros Ht. rewrite fire_lookup_keep; [exact Hc|].
    intros tm Hin Hk. specialize (Hq' tm Hin Hk). lia.
  - intros Ht. apply fire_lookup_reset with (mkTimer (t0 + RESET_AFTER)%N k);
      [|reflexivity|exact Ht].
    subst st'. rewrite occurrences_cons. cbn [snd].
    apply occurrences_keep_timer.
    + unfold occurrence.
      destruct (handleError_step t0 true (fire t0 st)) as (_ & _ & ->).
      apply in_app_iff. right. now left.
    + cbn [due]. eapply Forall_impl; [exact Hall|]. cbn. intros u Hu. lia.
Qed.

End Throttle.

Lemma notification_throttle_witness :
  fst (ErrorHandler.occurrences [0; 1000; 2000; 3000; 4000; 5000; 299999]%N
         Sample.boom Sample.ctx ErrorHandler.init)
  = [true; true; true; true; true; false; false].
Proof.
  destruct (notification_throttle Sample.boom Sample.ctx 0%N
              [0; 1000; 2000; 3000; 4000; 5000; 299999]%N ErrorHandler.init)
    as (_ & _ & _ & H & _).
  - reflexivity.
  - intros tm [].
  - repeat constructor; vm_compute; congruence.
  - exact H.
Defined.

(** C8 on the code. One failure occurs at 0 ms and at 4 min on a new
    handler. At 6 min no record of its key is left, and a window of five
    minutes starts with the occurrence that makes a new record. In that
    window the first five occurrences notify and the sixth does not, but
    the seventh, at 9 min, notifies again: the timer left by the call at
    4 min has deleted the record. And when the failure occurs every 30
    seconds on a new handler, the first five occurrences notify, the next
    five do not, and from five minutes on every occurrence notifies, each
    one after a timer of an earlier call has deleted the record. The key
    and the increment of the count are as the claim has them. *)
Theorem throttle_reopened_by_earlier_timer :
  let k := ErrorHandler.getErrorKey Sample.boom Sample.ctx in
  let st2 := snd (ErrorHandler.occurrences [0; 240000]%N Sample.boom Sample.ctx
                    ErrorHandler.init) in
  k = "completion:boom" /\
  ErrorHandler.errorCount (ErrorHandler.fire 360000 st2) !! k = None /\
  ErrorHandler.errorCount
    (snd (ErrorHandler.occurrences [360000]%N Sample.boom Sample.ctx st2)) !! k
  = Some 1%nat /\
  Forall (fun t => (360000 <= t < 360000 + ErrorHandler.RESET_AFTER)%N)
    [360000; 360001; 360002; 360003; 360004; 360005; 540000]%N /\
  fst (ErrorHandler.occurrences
         [360000; 360001; 360002; 360003; 360004; 360005; 540000]%N
         Sample.boom Sample.ctx st2)
  = [true; true; true; true; true; false; true] /\
  fst (ErrorHandler.occurrences
         (map (fun i => (30000 * N.of_nat i)%N) (seq 0 21))
         Sample.boom Sample.ctx ErrorHandler.init)
  = repeat true 5 ++ repeat false 5 ++ repeat true 11.
Proof.
  cbv zeta. split; [reflexivity|]. split; [vm_compute; reflexivity|].
  split; [vm_compute; reflexivity|]. split.
  - repeat constructor; vm_compute; congruence.
  - split; vm_compute; reflexivity.
Qed.

(** C9 at a concrete run. One failure occurs at 0 ms, at 4 min and at
    6 min. The record made at 0 ms is gone at 6 min (its first timer ran at
    5 min), so the occurrence at 6 min makes a new record with count 1. The
    timer left by the occurrence at 4 min runs at 9 min and deletes that new
    record three minutes after it was made. A run that fills the new record
    is told five times, is refused the sixth, and is told again at 9 min. *)
Theorem reset_timer_outlives_record :
  let k := ErrorHandler.getErrorKey Sample.boom Sample.ctx in
  let st2 := snd (ErrorHandler.occurrences [0; 240000]%N Sample.boom Sample.ctx
                    ErrorHandler.init) in
  let st3 := snd (ErrorHandler.occurrences [360000]%N Sample.boom Sample.ctx st2) in
  ErrorHandler.errorCount (ErrorHandler.fire 299999 st2) !! k = Some 2%nat /\
  ErrorHandler.errorCount (ErrorHandler.fire 360000 st2) !! k = None /\
  ErrorHandler.errorCount st3 !! k = Some 1%nat /\
  ErrorHandler.errorCount (ErrorHandler.fire 539999 st3) !! k = Some 1%nat /\
  ErrorHandler.errorCount (ErrorHandler.fire 540000 st3) !! k = None /\
  (540000 < 360000 + ErrorHandler.RESET_AFTER)%N /\
  fst (ErrorHandler.occurrences
         [0; 240000; 360000; 360001; 360002; 360003; 360004; 360005; 540000]%N
         Sample.boom Sample.ctx ErrorHandler.init)
  = [true; true; true; true; true; true; true; false; true].
Proof. vm_compute. repeat split; reflexivity. Qed.


(** ** Retry engine *)

Section Engine.

Import DeepSeekClient.

Variable config : AIAssistantConfiguration.

Lemma requestId_inj (endpoint : string) (t1 t2 : N) :
  requestId endpoint t1 = requestId endpoint t2 -> t1 = t2.
Proof.
  unfold requestId. intros H.
  apply (inj (String.app endpoint)) in H.
  apply (inj (String.app "-")) in H.
  now apply (inj pretty) in H.
Qed.

(** Whatever the transport raised, what [post] rejects with has no
    [response], and [shouldRetry] says yes to it. *)
Lemma shouldRetry_handleApiError (error : ErrorObject) :
  shouldRetry (handleApiError error) = true.
Proof.
  unfold handleApiError.
  destruct (err_response error) as [r|].
  - destruct (status r =? 401); [reflexivity|].
    destruct (status r =? 429); [reflexivity|].
    destruct (status r =? 500); reflexivity.
  - destruct (err_request error); reflexivity.
Qed.

(** On the failure itself [shouldRetry] follows its comment: no response,
    a server error or a rate limit. *)
Lemma shouldRetry_status (error : ErrorObject) (r : ErrorResponse) :
  err_response error = Some r ->
  shouldRetry (FObject error) = true <-> 500 <= status r \/ status r = 429.
Proof.
  unfold shouldRetry; cbn. intros ->. rewrite orb_true_iff. lia.
Qed.

Lemma makeRequest_success (transport : Transport) (fuel : nat) (endpoint : string)
    (payload : DeepSeekRequest) (w : World) (latency : N) (response : AxiosResponse) :
  transport (length (sent w)) = (latency, inl response) ->
  makeRequest config transport (S fuel) endpoint payload w =
  (Resolved response,
   mkWorld (now w + latency)%N
     (delete (requestId endpoint (now w)) (retryCount w))
     (sent w ++ [attempt_of config endpoint payload w]) (slept w)).
Proof. intros H. cbn [makeRequest]. unfold post. rewrite H. reflexivity. Qed.

(** A failed attempt whose request id has no count: the count becomes 1,
    the client sleeps one second and calls [makeRequest] again. *)
Lemma makeRequest_retry (transport : Transport) (fuel : nat) (endpoint : string)
    (payload : DeepSeekRequest) (w : World) (latency : N) (error : ErrorObject) :
  transport (length (sent w)) = (latency, inr error) ->
  retryCount w !! requestId endpoint (now w) = None ->
  makeRequest config transport (S fuel) endpoint payload w =
  makeRequest config transport fuel endpoint payload
    (mkWorld (now w + latency + 1000)%N
       (<[requestId endpoint (now w) := 1%nat]> (retryCount w))
       (sent w ++ [attempt_of config endpoint payload w]) (slept w ++ [1000%N])).
Proof.
  intros H Hnone. cbn [makeRequest]. unfold post. rewrite H.
  unfold handleRequestError. cbn [retryCount]. rewrite Hnone.
  rewrite shouldRetry_handleApiError. reflexivity.
Qed.

Lemma fresh_ids_after_retry (endpoint : string) (w : World) (latency : N)
    (sent' : list Attempt) (slept' : list N) :
  fresh_ids endpoint w ->
  fresh_ids endpoint
    (mkWorld (now w + latency + 1000)%N
       (<[requestId endpoint (now w) := 1%nat]> (retryCount w)) sent' slept').
Proof.
  intros Hf t Ht. cbn in *. rewrite lookup_insert_ne.
  - apply Hf. lia.
  - intros Heq. apply requestId_inj in Heq. lia.
Qed.

(** On a network where every request fails, [makeRequest] never rejects:
    after any number of attempts it has slept one second after each and is
    about to try again. *)
Lemma makeRequest_failing (f : nat -> N * ErrorObject) (endpoint : string)
    (payload : DeepSeekRequest) (fuel : nat) (w : World) :
  fresh_ids endpoint w ->
  exists w',
    makeRequest config (failing f) fuel endpoint payload w = (Pending, w') /\
    length (sent w') = (length (sent w) + fuel)%nat /\
    slept w' = slept w ++ repeat 1000%N fuel.
Proof.
  revert w. induction fuel as [|fuel IH]; intros w Hf.
  - exists w. cbn. rewrite Nat.add_0_r, app_nil_r. auto.
  - rewrite (makeRequest_retry (failing f) fuel endpoint payload w
               (fst (f (length (sent w)))) (snd (f (length (sent w)))))
      by (reflexivity || (apply Hf; lia)).
    edestruct IH as (w' & Hrun & Hsent & Hslept);
      [apply fresh_ids_after_retry, Hf|].
    exists w'. split; [exact Hrun|]. cbn [sent slept] in Hsent, Hslept.
    rewrite Hsent, Hslept, length_app, <- app_assoc. cbn. split; [lia|reflexivity].
Qed.

Lemma fresh_ids_init (endpoint : string) (t0 : N) : fresh_ids endpoint (init t0).
Proof. intros t _. apply lookup_empty. Qed.


Lemma retries_forever_from_init (f : nat -> N * ErrorObject)
    (endpoint : string) (payload : DeepSeekRequest) (t0 : N) (fuel : nat) :
  exists w',
    makeRequest config (failing f) fuel endpoint payload (init t0) = (Pending, w') /\
    length (sent w') = fuel /\
    slept w' = repeat 1000%N fuel.
Proof.
  destruct (makeRequest_failing f endpoint payload fuel (init t0)
              (fresh_ids_init endpoint t0)) as (w' & Hrun & Hsent & Hslept).
  exists w'. auto.
Qed.

(** C1 on the code. Let every request fail, with any error and any latency
    (so also with one classified Network, ServerFault or RateLimit). From a
    new client [makeRequest] does not reach a failed state: for every
    number of attempts it has made that many, has slept one second after
    each, and goes on. Each call computes a new request id from the clock,
    so the count read under it is always zero. *)
Theorem makeRequest_retries_forever (f : nat -> N * ErrorObject)
    (endpoint : string) (payload : DeepSeekRequest) (t0 : N) (fuel : nat) :
  exists w',
    makeRequest config (failing f) fuel endpoint payload (init t0) = (Pending, w') /\
    length (sent w') = fuel /\
    slept w' = repeat 1000%N fuel.
Proof. apply retries_forever_from_init. Qed.

(** Five refused connections in a row: five requests sent, one second
    slept after each, and the call still has not failed. *)
Example five_refused_connections :
  let run := makeRequest Sample.goodConfig (failing (fun _ => (120%N, connectionRefused)))
               5 CHAT Sample.payload (init Sample.T0) in
  fst run = Pending /\
  map sent_at (sent (snd run))
  = [1700000000000; 1700000001120; 1700000002240; 1700000003360; 1700000004480]%N /\
  slept (snd run) = [1000; 1000; 1000; 1000; 1000]%N /\
  map snd (map_to_list (retryCount (snd run))) = [1; 1; 1; 1; 1]%nat.
Proof. vm_compute. repeat split; reflexivity. Qed.

(** C2 on the code. Let the first two requests fail and the third succeed.
    [makeRequest] resolves with the response after three attempts, but it
    sleeps one second both times, and the counts written under the ids of
    the first two attempts are still in the table at the end. *)
Theorem makeRequest_failing_twice (f : nat -> N * ErrorObject) (latency : N)
    (response : AxiosResponse) (endpoint : string) (payload : DeepSeekRequest)
    (t0 : N) (extra : nat) :
  let run := makeRequest config (failing_twice f latency response)
               (3 + extra) endpoint payload (init t0) in
  let t1 := (t0 + fst (f 0%nat) + 1000)%N in
  fst run = Resolved response /\
  length (sent (snd run)) = 3%nat /\
  slept (snd run) = [1000; 1000]%N /\
  retryCount (snd run) !! requestId endpoint t0 = Some 1%nat /\
  retryCount (snd run) !! requestId endpoint t1 = Some 1%nat.
Proof.
  intros run t1. subst run. cbn [Nat.add].
  rewrite (makeRequest_retry (failing_twice f latency response) _ endpoint payload
             (init t0) (fst (f 0%nat)) (snd (f 0%nat)))
    by (reflexivity || apply lookup_empty).
  cbn [init now retryCount sent slept app]. fold t1.
  rewrite (makeRequest_retry (failing_twice f latency response) _ endpoint payload
             _ (fst (f 1%nat)) (snd (f 1%nat))); cbn [now retryCount sent slept app length].
  2: reflexivity.
  2: { rewrite lookup_insert_ne; [apply lookup_empty|].
       intros Heq. apply requestId_inj in Heq. subst t1. lia. }
  erewrite makeRequest_success by reflexivity.
  cbn [fst snd now retryCount sent slept app length].
  assert (H01 : requestId endpoint t0 <> requestId endpoint t1).
  { intros Heq. apply requestId_inj in Heq. subst t1. lia. }
  assert (H02 : requestId endpoint (t1 + fst (f 1%nat) + 1000)%N
                <> requestId endpoint t0).
  { intros Heq. apply requestId_inj in Heq. subst t1. lia. }
  assert (H12 : requestId endpoint (t1 + fst (f 1%nat) + 1000)%N
                <> requestId endpoint t1).
  { intros Heq. apply requestId_inj in Heq. lia. }
  repeat split.
  - rewrite lookup_delete_ne by exact H02.
    rewrite lookup_insert_ne by (intros E; apply H01; now symmetry).
    apply lookup_insert_eq.
  - rewrite lookup_delete_ne by exact H12. apply lookup_insert_eq.
Qed.

(** C3 on the code. For a response with status 401, 403 or any other 4xx
    but 429, [shouldRetry] applied to the failure says no. [makeRequest]
    never sees that failure: the response interceptor has replaced it by an
    [Error] without [response], to which [shouldRetry] says yes. So the
    request is sent again after a second, and again. *)
Theorem makeRequest_retries_client_errors (error : ErrorObject) (r : ErrorResponse)
    (latency : N) (endpoint : string) (payload : DeepSeekRequest)
    (t0 : N) (fuel : nat) :
  err_response error = Some r ->
  400 <= status r < 500 -> status r <> 429 ->
  shouldRetry (FObject error) = false /\
  shouldRetry (handleApiError error) = true /\
  exists w',
    makeRequest config (failing (fun _ => (latency, error))) fuel endpoint payload
      (init t0) = (Pending, w') /\
    length (sent w') = fuel /\
    slept w' = repeat 1000%N fuel.
Proof.
  intros Hr Hst H429. split; [|split].
  - destruct (shouldRetry (FObject error)) eqn:E; [|reflexivity].
    apply (shouldRetry_status error r Hr) in E. lia.
  - apply shouldRetry_handleApiError.
  - apply retries_forever_from_init.
Qed.

End Engine.

Lemma makeRequest_retries_client_errors_witness :
  DeepSeekClient.shouldRetry (FObject (httpError 401 "bad key")) = false /\
  exists w',
    DeepSeekClient.makeRequest Sample.goodConfig
      (failing (fun _ => (120%N, httpError 401 "bad key"))) 5
      DeepSeekClient.CHAT Sample.payload (DeepSeekClient.init Sample.T0)
    = (Pending, w') /\
    length (sent w') = 5%nat /\
    slept w' = repeat 1000%N 5.
Proof.
  destruct (makeRequest_retries_client_errors Sample.goodConfig
              (httpError 401 "bad key") (mkErrorResponse 401 (Some "bad key"))
              120%N DeepSeekClient.CHAT Sample.payload Sample.T0 5)
    as (H1 & _ & H3).
  - reflexivity.
  - cbn. lia.
  - cbn. lia.
  - exact (conj H1 H3).
Defined.

(** ** Orchestrator *)

Section Orchestrator.

Import DeepSeekClient.

Variable config : AIAssistantConfiguration.
Variable transport : Transport.

(** [makeRequest] only ever adds to the log of requests. *)
Lemma makeRequest_sent_grows (fuel : nat) (endpoint : string)
    (payload : DeepSeekRequest) (w : World) :
  exists more,
    sent (snd (makeRequest config transport fuel endpoint payload w))
    = sent w ++ more.
Proof.
  revert w. induction fuel as [|fuel IH]; intros w.
  - exists []. cbn. now rewrite app_nil_r.
  - cbn [makeRequest]. unfold post.
    destruct (transport (length (sent w))) as [latency [response|error]].
    + eexists. cbn. reflexivity.
    + unfold handleRequestError.
      match goal with |- context [if ?b then _ else _] => destruct b end.
      * match goal with |- context [makeRequest _ _ fuel _ _ ?w1] =>
          destruct (IH w1) as [more Hmore] end.
        rewrite Hmore. cbn [sent sleep set_retryCount]. rewrite <- app_assoc.
        eexists. reflexivity.
      * eexists. cbn. reflexivity.
Qed.

(** With fuel for one step, the first thing [makeRequest] does is send. *)
Lemma makeRequest_first_attempt (fuel : nat) (endpoint : string)
    (payload : DeepSeekRequest) (w : World) :
  exists more,
    sent (snd (makeRequest config transport (S fuel) endpoint payload w))
    = sent w ++ attempt_of config endpoint payload w :: more.
Proof.
  cbn [makeRequest]. unfold post.
  destruct (transport (length (sent w))) as [latency [response|error]].
  - exists []. reflexivity.
  - unfold handleRequestError.
    match goal with |- context [if ?b then _ else _] => destruct b end.
    + match goal with |- context [makeRequest _ _ fuel _ _ ?w1] =>
        destruct (makeRequest_sent_grows fuel endpoint payload w1) as [more Hmore] end.
      rewrite Hmore. cbn [sent sleep set_retryCount]. rewrite <- app_assoc.
      exists more. reflexivity.
    + exists []. reflexivity.
Qed.

(** An error [makeRequest] rejects with is one the interceptor built from
    an error of the transport. *)
Lemma makeRequest_rejected (fuel : nat) (endpoint : string)
    (payload : DeepSeekRequest) (w w' : World) (e : Failure) :
  makeRequest config transport fuel endpoint payload w = (Rejected e, w') ->
  exists n latency raw,
    transport n = (latency, inr raw) /\ e = handleApiError raw.
Proof.
  revert w. induction fuel as [|fuel IH]; intros w; [discriminate|].
  cbn [makeRequest]. unfold post.
  destruct (transport (length (sent w))) as [latency [response|error]] eqn:Ht;
    [discriminate|].
  unfold handleRequestError.
  match goal with |- context [if ?b then _ else _] => destruct b end.
  - apply IH.
  - intros [= <- _]. eauto.
Qed.

(** C4 as the sources have it. No operation looks at the validation
    result. For every configuration, valid or not, each of the four
    operations, once it runs, hands a request to the network first thing:
    to the chat-completion endpoint, with the configured key as bearer
    credential and the configured model. *)
Theorem operations_send_unconditionally (fuel : nat) (op : Operation) (w : World) :
  exists a more,
    sent (snd (perform config transport (S fuel) op w)) = sent w ++ a :: more /\
    sent_at a = now w /\
    sent_to a = CHAT /\
    authorization a = "Bearer " +:+ apiKey config /\
    req_model (body a) = model config.
Proof.
  destruct op as [r|r|r|]; cbn [perform];
    unfold generateCompletion, explainCode, refactorCode, testConnection;
    match goal with |- context [makeRequest _ _ _ ?ep ?pl ?w0] =>
      destruct (makeRequest_first_attempt fuel ep pl w0) as [more Hmore];
      destruct (makeRequest config transport (S fuel) ep pl w0) as [[resp|e|] w1]
    end;
    cbn [fst snd] in Hmore |- *; rewrite Hmore;
    eexists; exists more; (split; [reflexivity|]); cbn; auto.
Qed.

(** With the count under the id of the call at [MAX_RETRIES] or above, a
    failing request ends the call: [makeRequest] rejects with the error of
    the interceptor after that one request, without a backoff, and deletes
    the count. *)
Lemma makeRequest_gives_up (fuel : nat) (endpoint : string)
    (payload : DeepSeekRequest) (w : World) (latency : N) (raw : ErrorObject)
    (n : nat) :
  transport (length (sent w)) = (latency, inr raw) ->
  retryCount w !! requestId endpoint (now w) = Some n ->
  (MAX_RETRIES <= n)%nat ->
  makeRequest config transport (S fuel) endpoint payload w =
  (Rejected (handleApiError raw),
   mkWorld (now w + latency)%N
     (delete (requestId endpoint (now w)) (retryCount w))
     (sent w ++ [attempt_of config endpoint payload w]) (slept w)).
Proof.
  intros Ht Hn Hle. cbn [makeRequest]. unfold post. rewrite Ht.
  unfold handleRequestError. cbn [retryCount]. rewrite Hn. cbn [from_option].
  rewrite bool_decide_eq_false_2 by (unfold Datatypes.id; lia).
  rewrite andb_false_r. reflexivity.
Qed.

(** C5 as the sources have it. (1) An error [makeRequest] rejects with
    is one the interceptor made from an error of the transport, and
    (2) [makeRequest] does reject, with that error and after that one
    request, when the request fails while the count under its id has
    reached [MAX_RETRIES]. (3) Whenever [makeRequest] rejects, whatever the
    error, completion, explanation and refactoring reject with a new
    [Error] whose message is fixed per operation, and the connectivity
    probe resolves with [false]; (4) the three operations reject with no
    other error and the probe never rejects. (5) The message the
    interceptor substitutes is chosen by status: 401, 429 and 500 have
    fixed messages, any other status gives the API error text behind a
    prefix. *)
Theorem operations_wrap_failures (fuel : nat) (w : World) :
  (forall endpoint payload e w',
     makeRequest config transport fuel endpoint payload w = (Rejected e, w') ->
     exists n latency raw,
       transport n = (latency, inr raw) /\ e = handleApiError raw) /\
  (forall endpoint payload latency raw n,
     (0 < fuel)%nat ->
     transport (length (sent w)) = (latency, inr raw) ->
     retryCount w !! requestId endpoint (now w) = Some n ->
     (MAX_RETRIES <= n)%nat ->
     makeRequest config transport fuel endpoint payload w =
     (Rejected (handleApiError raw),
      mkWorld (now w + latency)%N
        (delete (requestId endpoint (now w)) (retryCount w))
        (sent w ++ [attempt_of config endpoint payload w]) (slept w))) /\
  ((forall r e w',
      makeRequest config transport fuel CHAT (completionBody config r) w
        = (Rejected e, w') ->
      generateCompletion config transport fuel r w
        = (Rejected (newError "Failed to generate code completion"), w')) /\
   (forall r e w',
      makeRequest config transport fuel CHAT (explanationBody config r) w
        = (Rejected e, w') ->
      explainCode config transport fuel r w
        = (Rejected (newError "Failed to explain code"), w')) /\
   (forall r e w',
      makeRequest config transport fuel CHAT (refactorBody config r) w
        = (Rejected e, w') ->
      refactorCode config transport fuel r w
        = (Rejected (newError "Failed to refactor code"), w')) /\
   (forall e w',
      makeRequest config transport fuel CHAT (probeBody config) w
        = (Rejected e, w') ->
      testConnection config transport fuel w = (Resolved false, w'))) /\
  ((forall r e w',
      generateCompletion config transport fuel r w = (Rejected e, w') ->
      e = newError "Failed to generate code completion") /\
   (forall r e w',
      explainCode config transport fuel r w = (Rejected e, w') ->
      e = newError "Failed to explain code") /\
   (forall r e w',
      refactorCode config transport fuel r w = (Rejected e, w') ->
      e = newError "Failed to refactor code") /\
   (forall e w', testConnection config transport fuel w <> (Rejected e, w'))) /\
  ((forall msg,
      handleApiError (httpError 401 msg)
        = newError "Invalid API key. Please check your configuration." /\
      handleApiError (httpError 429 msg)
        = newError "Rate limit exceeded. Please try again later." /\
      handleApiError (httpError 500 msg)
        = newError "DeepSeek API server error. Please try again later.") /\
   (forall st msg,
      st <> 401 -> st <> 429 -> st <> 500 -> msg <> "" ->
      handleApiError (httpError st msg) = newError ("API Error: " +:+ msg))).
Proof.
  split; [|split; [|split; [|split; [|split]]]].
  - intros endpoint payload e w'. apply makeRequest_rejected.
  - intros endpoint payload latency raw n Hfuel Ht Hn Hle.
    destruct fuel as [|fuel']; [lia|]. now apply makeRequest_gives_up with n.
  - repeat split; intros;
      unfold generateCompletion, explainCode, refactorCode, testConnection;
      unfold completionBody, explanationBody, refactorBody, probeBody in *;
      cbv zeta;
      match goal with H : makeRequest _ _ _ _ _ _ = _ |- _ => rewrite H end;
      reflexivity.
  - repeat split; intros *;
      unfold generateCompletion, explainCode, refactorCode, testConnection;
      cbv zeta;
      match goal with |- context [makeRequest ?c ?t ?f ?ep ?pl ?w0] =>
        destruct (makeRequest c t f ep pl w0) as [[resp|e0|] w1]
      end; congruence.
  - intros msg. repeat split; reflexivity.
  - intros st msg H401 H429 H500 Hmsg. unfold handleApiError, httpError. cbn.
    destruct (Z.eqb_spec st 401); [contradiction|].
    destruct (Z.eqb_spec st 429); [contradiction|].
    destruct (Z.eqb_spec st 500); [contradiction|].
    destruct msg; [contradiction|reflexivity].
Qed.

End Orchestrator.

(** The default configuration is invalid (no API key), and each of the four
    operations still sends one request to a network that answers. *)
Lemma invalid_configuration_still_sends :
  isValid (ConfigurationManager.validateConfiguration Sample.defaultConfig) = false /\
  length (sent (snd (perform Sample.defaultConfig Sample.okTransport 1
                       (Completion Sample.completionRequest)
                       (DeepSeekClient.init Sample.T0)))) = 1%nat /\
  length (sent (snd (perform Sample.defaultConfig Sample.okTransport 1
                       (Explanation (mkExplanationRequest "x = 1" "python" false))
                       (DeepSeekClient.init Sample.T0)))) = 1%nat /\
  length (sent (snd (perform Sample.defaultConfig Sample.okTransport 1
                       (Refactor (mkRefactorRequest "x = 1" "python" readability))
                       (DeepSeekClient.init Sample.T0)))) = 1%nat /\
  length (sent (snd (perform Sample.defaultConfig Sample.okTransport 1
                       ConnectivityProbe
                       (DeepSeekClient.init Sample.T0)))) = 1%nat.
Proof. vm_compute. repeat split; reflexivity. Qed.

(** A request that fails with status 401 while its id already counts three
    retries: [makeRequest] rejects with the invalid-key error; completion,
    explanation and refactoring surface their own fixed errors instead and
    the probe answers [false]. Statuses 403 and 503 get the generic
    message, not the invalid-key or the server-error one. *)
Lemma terminal_failure_is_wrapped :
  fst (DeepSeekClient.makeRequest Sample.goodConfig
         (failing (fun _ => (120%N, httpError 401 "bad key"))) 1
         DeepSeekClient.CHAT Sample.payload Sample.exhausted)
  = Rejected (newError "Invalid API key. Please check your configuration.") /\
  fst (DeepSeekClient.generateCompletion Sample.goodConfig
         (failing (fun _ => (120%N, httpError 401 "bad key"))) 1
         Sample.completionRequest Sample.exhausted)
  = Rejected (newError "Failed to generate code completion") /\
  fst (DeepSeekClient.explainCode Sample.goodConfig
         (failing (fun _ => (120%N, httpError 401 "bad key"))) 1
         (mkExplanationRequest "x = 1" "python" false) Sample.exhausted)
  = Rejected (newError "Failed to explain code") /\
  fst (DeepSeekClient.refactorCode Sample.goodConfig
         (failing (fun _ => (120%N, httpError 401 "bad key"))) 1
         (mkRefactorRequest "x = 1" "python" readability) Sample.exhausted)
  = Rejected (newError "Failed to refactor code") /\
  fst (DeepSeekClient.testConnection Sample.goodConfig
         (failing (fun _ => (120%N, httpError 401 "bad key"))) 1
         Sample.exhausted)
  = Resolved false /\
  DeepSeekClient.handleApiError (httpError 403 "forbidden")
  = newError "API Error: forbidden" /\
  DeepSeekClient.handleApiError (httpError 503 "overloaded")
  = newError "API Error: overloaded".
Proof. vm_compute. repeat split; reflexivity. Qed.

Lemma operations_wrap_failures_witness :
  fst (DeepSeekClient.generateCompletion Sample.goodConfig
         (failing (fun _ => (120%N, httpError 401 "bad key"))) 1
         Sample.completionRequest Sample.exhausted)
  = Rejected (newError "Failed to generate code completion") /\
  fst (DeepSeekClient.explainCode Sample.goodConfig
         (failing (fun _ => (120%N, httpError 401 "bad key"))) 1
         (mkExplanationRequest "x = 1" "python" false) Sample.exhausted)
  = Rejected (newError "Failed to explain code") /\
  fst (DeepSeekClient.refactorCode Sample.goodConfig
         (failing (fun _ => (120%N, httpError 401 "bad key"))) 1
         (mkRefactorRequest "x = 1" "python" readability) Sample.exhausted)
  = Rejected (newError "Failed to refactor code") /\
  fst (DeepSeekClient.testConnection Sample.goodConfig
         (failing (fun _ => (120%N, httpError 401 "bad key"))) 1
         Sample.exhausted)
  = Resolved false /\
  (exists n latency raw,
     failing (fun _ => (120%N, httpError 401 "bad key")) n = (latency, inr raw) /\
     DeepSeekClient.handleApiError (httpError 401 "bad key")
     = DeepSeekClient.handleApiError raw) /\
  DeepSeekClient.handleApiError (httpError 403 "forbidden")
  = newError "API Error: forbidden".
Proof.
  destruct (operations_wrap_failures Sample.goodConfig
              (failing (fun _ => (120%N, httpError 401 "bad key"))) 1
              Sample.exhausted)
    as (Hengine & Hgives_up & (Hc & He & Hr & Hp) & _ & _ & Hother).
  assert (Hrun : forall payload,
    DeepSeekClient.makeRequest Sample.goodConfig
      (failing (fun _ => (120%N, httpError 401 "bad key"))) 1
      DeepSeekClient.CHAT payload Sample.exhausted
    = (Rejected (DeepSeekClient.handleApiError (httpError 401 "bad key")),
       mkWorld (now Sample.exhausted + 120)%N
         (delete (DeepSeekClient.requestId DeepSeekClient.CHAT (now Sample.exhausted))
                 (retryCount Sample.exhausted))
         (sent Sample.exhausted
            ++ [DeepSeekClient.attempt_of Sample.goodConfig DeepSeekClient.CHAT
                  payload Sample.exhausted])
         (slept Sample.exhausted))).
  { intros payload.
    apply (Hgives_up DeepSeekClient.CHAT payload 120%N (httpError 401 "bad key") 3%nat).
    - lia.
    - reflexivity.
    - vm_compute. reflexivity.
    - unfold DeepSeekClient.MAX_RETRIES. lia. }
  split; [rewrite (Hc _ _ _ (Hrun _)); reflexivity|].
  split; [rewrite (He _ _ _ (Hrun _)); reflexivity|].
  split; [rewrite (Hr _ _ _ (Hrun _)); reflexivity|].
  split; [rewrite (Hp _ _ (Hrun _)); reflexivity|].
  split; [exact (Hengine _ _ _ _ (Hrun Sample.payload))|].
  apply Hother; discriminate.
Defined.

(** * Further properties of the code *)

(** ** White space and trimming *)

Section Trimming.

Lemma trimStart_empty_iff (s : string) :
  Js.trimStart s = "" <-> Js.allWhiteSpace s = true.
Proof.
  induction s as [|c s IH]; cbn; [tauto|].
  destruct (Js.isWhiteSpace c); cbn; [exact IH|]. split; discriminate.
Qed.

Lemma trimEnd_empty_iff (s : string) :
  Js.trimEnd s = "" <-> Js.allWhiteSpace s = true.
Proof.
  induction s as [|c s IH]; [cbn; tauto|]. rewrite trimEnd_cons. cbn [Js.allWhiteSpace].
  destruct (Js.trimEnd s) as [|d r].
  - destruct (Js.isWhiteSpace c); cbn.
    + split; [intros _; now apply IH | reflexivity].
    + split; discriminate.
  - split; [discriminate|]. intros H. apply andb_true_iff in H as [_ H].
    apply IH in H. discriminate.
Qed.

Lemma trim_empty_iff (s : string) :
  Js.trim s = "" <-> Js.allWhiteSpace s = true.
Proof.
  unfold Js.trim. rewrite trimEnd_empty_iff. split.
  - intros H. apply trimStart_empty_iff.
    destruct (Js.trimStart s) as [|c r] eqn:E; [reflexivity|].
    apply trimStart_head in E. cbn in H. rewrite E in H. discriminate.
  - intros H. apply trimStart_empty_iff in H. now rewrite H.
Qed.

(** A string that starts with a code unit that is not white space does not
    trim to nothing. *)
Lemma trim_nonempty_head (c : ascii) (s : string) :
  Js.isWhiteSpace c = false -> Js.trim (String c s) <> "".
Proof.
  intros Hc H. apply trim_empty_iff in H. cbn in H. rewrite Hc in H. discriminate.
Qed.

End Trimming.

(** ** More on the configuration validator *)

Section ValidatorMore.

Import ConfigurationManager.

(** The condition under which the key counts as missing. *)
Lemma blank_iff (c : AIAssistantConfiguration) :
  String.eqb (apiKey c) "" || String.eqb (Js.trim (apiKey c)) "" = true
  <-> Js.trim (apiKey c) = "".
Proof.
  rewrite orb_true_iff. split.
  - intros [H|H]; apply String.eqb_eq in H; [now rewrite H | exact H].
  - intros H. right. now apply String.eqb_eq.
Qed.

Lemma apiKeyIssues_blank (c : AIAssistantConfiguration) :
  Js.trim (apiKey c) = "" ->
  apiKeyIssues c = [mkIssue "apiKey" "API Key is required" SeverityError].
Proof.
  intros H. unfold apiKeyIssues. apply blank_iff in H. now rewrite H.
Qed.

Lemma apiKeyIssues_nonblank (c : AIAssistantConfiguration) :
  Js.trim (apiKey c) <> "" ->
  apiKeyIssues c =
  if isValidApiKeyFormat (apiKey c) then []
  else [mkIssue "apiKey" "API Key format appears invalid" SeverityWarning].
Proof.
  intros H. unfold apiKeyIssues.
  destruct (String.eqb (apiKey c) "" || String.eqb (Js.trim (apiKey c)) "") eqn:E.
  - apply blank_iff in E. contradiction.
  - now destruct (isValidApiKeyFormat (apiKey c)).
Qed.

(** Only the first rule raises issues on field [apiKey]. *)
Lemma in_collected_apiKey (c : AIAssistantConfiguration) (e : ConfigurationError) :
  In e (collected c) -> field e = "apiKey" -> In e (apiKeyIssues c).
Proof.
  rewrite in_collected. intros [H|[H|[H|[H|H]]]] Hf; [exact H| | | |];
    unfold modelIssues, maxTokensRangeIssues, temperatureIssues, performanceIssues in H;
    match type of H with context [if ?b then _ else _] => destruct b end;
    cbn in H; (destruct H as [<-|[]]; discriminate) || destruct H.
Qed.

(** X1. The result is well formed: [errors] holds issues of severity error
    only, [warnings] issues of severity warning only, every issue found is
    in exactly one of the two, and [isValid] says that [errors] is empty. *)
Theorem validation_result_well_formed (c : AIAssistantConfiguration) :
  let r := validateConfiguration c in
  (forall e, In e (errors r) -> severity e = SeverityError) /\
  (forall e, In e (warnings r) -> severity e = SeverityWarning) /\
  (forall e, In e (collected c) <-> In e (errors r) \/ In e (warnings r)) /\
  (length (errors r) + length (warnings r) = length (collected c))%nat /\
  (isValid r = true <-> errors r = []).
Proof.
  cbv zeta. split; [|split; [|split; [|split]]].
  - intros e He. now apply in_errors in He.
  - intros e He. now apply in_warnings in He.
  - intros e. rewrite in_errors, in_warnings.
    destruct (severity e); intuition congruence.
  - unfold validateConfiguration; cbn [errors warnings].
    induction (collected c) as [|e l IH]; [reflexivity|]. cbn [List.filter].
    assert (Hx : hasSeverity SeverityWarning e = negb (hasSeverity SeverityError e))
      by (unfold hasSeverity; now destruct (severity e)).
    rewrite Hx. destruct (hasSeverity SeverityError e); cbn [negb length]; lia.
  - apply isValid_iff.
Qed.

Lemma Qltb_false_iff (x y : Q) : Qltb x y = false <-> (y <= x)%Q.
Proof.
  unfold Qltb. rewrite negb_false_iff. apply Qle_bool_iff.
Qed.

(** X2. A configuration is valid exactly when the key is not blank, the
    model is one of the two known ones, [maxTokens] lies in 100..8192 and
    the temperature in 0..2. Warnings play no part. *)
Theorem isValid_characterisation (c : AIAssistantConfiguration) :
  isValid (validateConfiguration c) = true <->
  Js.trim (apiKey c) <> "" /\
  (model c = "deepseek-coder" \/ model c = "deepseek-chat") /\
  100 <= maxTokens c <= 8192 /\
  (0 <= temperature c)%Q /\ (temperature c <= 2)%Q.
Proof.
  unfold validateConfiguration, collected; cbn [isValid].
  rewrite !existsb_app, negb_true_iff, !orb_false_iff.
  assert (Ha : existsb (hasSeverity SeverityError) (apiKeyIssues c) = false
               <-> Js.trim (apiKey c) <> "").
  { destruct (string_dec (Js.trim (apiKey c)) "") as [Hb|Hb].
    - rewrite (apiKeyIssues_blank c Hb). cbn. split; [discriminate | contradiction].
    - rewrite (apiKeyIssues_nonblank c Hb).
      destruct (isValidApiKeyFormat (apiKey c)); cbn; tauto. }
  assert (Hm : existsb (hasSeverity SeverityError) (modelIssues c) = false
               <-> model c = "deepseek-coder" \/ model c = "deepseek-chat").
  { unfold modelIssues.
    destruct (String.eqb_spec (model c) "deepseek-coder") as [->|H1]; cbn; [tauto|].
    destruct (String.eqb_spec (model c) "deepseek-chat") as [->|H2]; cbn; [tauto|].
    split; [discriminate | tauto]. }
  assert (Hr : existsb (hasSeverity SeverityError) (maxTokensRangeIssues c) = false
               <-> 100 <= maxTokens c <= 8192).
  { unfold maxTokensRangeIssues.
    destruct (Z.ltb_spec (maxTokens c) 100), (Z.ltb_spec 8192 (maxTokens c)); cbn;
      split; try discriminate; try lia; reflexivity. }
  assert (Ht : existsb (hasSeverity SeverityError) (temperatureIssues c) = false
               <-> (0 <= temperature c)%Q /\ (temperature c <= 2)%Q).
  { unfold temperatureIssues.
    destruct (Qltb (temperature c) 0) eqn:E0; cbn.
    - split; [discriminate|]. intros [H _]. apply Qltb_false_iff in H. congruence.
    - apply Qltb_false_iff in E0.
      destruct (Qltb 2 (temperature c)) eqn:E2; cbn.
      + split; [discriminate|]. intros [_ H]. apply Qltb_false_iff in H. congruence.
      + apply Qltb_false_iff in E2. tauto. }
  assert (Hp : existsb (hasSeverity SeverityError) (performanceIssues c) = false).
  { unfold performanceIssues. now destruct (4096 <? maxTokens c). }
  rewrite Ha, Hm, Hr, Ht. tauto.
Qed.

(** X3. The rule on the key. A blank key (empty or white space only) gives
    the error "API Key is required", no other issue on the key and no
    warning on it. A key that is not blank never gives an error on the
    key, however short or ill-formed; it gives the format warning exactly
    when the format check fails. *)
Theorem apiKey_rule (c : AIAssistantConfiguration) :
  let r := validateConfiguration c in
  (Js.trim (apiKey c) = "" ->
     In (mkIssue "apiKey" "API Key is required" SeverityError) (errors r) /\
     (forall e, In e (errors r) -> field e = "apiKey" ->
                e = mkIssue "apiKey" "API Key is required" SeverityError) /\
     (forall e, In e (warnings r) -> field e <> "apiKey")) /\
  (Js.trim (apiKey c) <> "" ->
     (forall e, In e (errors r) -> field e <> "apiKey") /\
     (In (mkIssue "apiKey" "API Key format appears invalid" SeverityWarning)
         (warnings r)
      <-> isValidApiKeyFormat (apiKey c) = false)).
Proof.
  cbv zeta. split.
  - intros Hb. pose proof (apiKeyIssues_blank c Hb) as Hi. repeat split.
    + apply in_errors. split; [|reflexivity]. apply in_collected. left.
      rewrite Hi. now left.
    + intros e He Hf. apply in_errors in He as [He _].
      apply (in_collected_apiKey c e He) in Hf. rewrite Hi in Hf.
      now destruct Hf as [<-|[]].
    + intros e He Hf. apply in_warnings in He as [He Hs].
      apply (in_collected_apiKey c e He) in Hf. rewrite Hi in Hf.
      destruct Hf as [<-|[]]. discriminate.
  - intros Hb. pose proof (apiKeyIssues_nonblank c Hb) as Hi. split.
    + intros e He Hf. apply in_errors in He as [He Hs].
      apply (in_collected_apiKey c e He) in Hf. rewrite Hi in Hf.
      destruct (isValidApiKeyFormat (apiKey c)); [destruct Hf|].
      destruct Hf as [<-|[]]. discriminate.
    + rewrite in_warnings. split.
      * intros [He _]. apply in_collected_apiKey in He; [|reflexivity].
        rewrite Hi in He. now destruct (isValidApiKeyFormat (apiKey c)).
      * intros Hf. split; [|reflexivity]. apply in_collected. left.
        rewrite Hi, Hf. now left.
Qed.

Lemma apiKey_rule_witness :
  In (mkIssue "apiKey" "API Key is required" SeverityError)
     (errors (validateConfiguration (mkConfig "   " "deepseek-coder" 2048 (1 # 10)))) /\
  In (mkIssue "apiKey" "API Key format appears invalid" SeverityWarning)
     (warnings (validateConfiguration (mkConfig "sk-abc" "deepseek-coder" 2048 (1 # 10)))).
Proof.
  split.
  - apply (apiKey_rule (mkConfig "   " "deepseek-coder" 2048 (1 # 10))). reflexivity.
  - apply (apiKey_rule (mkConfig "sk-abc" "deepseek-coder" 2048 (1 # 10)));
      [discriminate | reflexivity].
Defined.

Lemma valid_format_not_blank (k : string) :
  isValidApiKeyFormat k = true -> k <> "" /\ Js.trim k <> "".
Proof.
  unfold isValidApiKeyFormat. intros H. apply andb_true_iff in H as [_ H].
  apply String.prefix_correct in H.
  destruct k as [|b k]; cbn in H; [discriminate|]. injection H as -> _.
  split; [discriminate|]. now apply trim_nonempty_head.
Qed.

(** X4. [testApiConnection] answers [true] exactly for the configurations
    on whose key validation has nothing to say, neither an error nor a
    warning. *)
Theorem testApiConnection_iff_no_apiKey_issue (c : AIAssistantConfiguration) :
  testApiConnection c = true <->
  forall e, In e (errors (validateConfiguration c))
            \/ In e (warnings (validateConfiguration c)) ->
            field e <> "apiKey".
Proof.
  unfold testApiConnection. split.
  - intros H e He Hf.
    assert (Hfmt : isValidApiKeyFormat (apiKey c) = true).
    { destruct (String.eqb (apiKey c) ""); [discriminate | exact H]. }
    destruct (valid_format_not_blank _ Hfmt) as [_ Hnb].
    assert (Hin : In e (collected c)).
    { destruct He as [He|He]; [apply in_errors in He | apply in_warnings in He]; tauto. }
    apply (in_collected_apiKey c e Hin) in Hf.
    rewrite (apiKeyIssues_nonblank c Hnb), Hfmt in Hf. destruct Hf.
  - intros H.
    destruct (string_dec (Js.trim (apiKey c)) "") as [Hb|Hb].
    + exfalso. apply (H (mkIssue "apiKey" "API Key is required" SeverityError));
        [|reflexivity].
      left. apply in_errors. split; [|reflexivity]. apply in_collected. left.
      rewrite (apiKeyIssues_blank c Hb). now left.
    + destruct (isValidApiKeyFormat (apiKey c)) eqn:Hfmt.
      * destruct (String.eqb_spec (apiKey c) "") as [E|_]; [|reflexivity].
        rewrite E in Hb. now contradiction Hb.
      * exfalso.
        apply (H (mkIssue "apiKey" "API Key format appears invalid" SeverityWarning));
          [|reflexivity].
        right. apply in_warnings. split; [|reflexivity]. apply in_collected. left.
        rewrite (apiKeyIssues_nonblank c Hb), Hfmt. now left.
Qed.

End ValidatorMore.

(** ** More on the response parsers *)

Section ParsersMore.

Import DeepSeekClient.

Lemma isWhiteSpace_LF : Js.isWhiteSpace Js.LF = true.
Proof. reflexivity. Qed.

(** The lines of a text are all blank exactly when the text is. *)
Lemma split_lines_allWhiteSpace (s : string) :
  forallb Js.allWhiteSpace (Js.split_lines s) = Js.allWhiteSpace s.
Proof.
  induction s as [|c s IH]; [reflexivity|]. cbn [Js.split_lines Js.allWhiteSpace].
  destruct (Ascii.eqb_spec c Js.LF) as [->|Hc].
  - cbn. now rewrite IH.
  - pose proof (split_lines_nonnil s) as Hn.
    destruct (Js.split_lines s) as [|l ls]; [contradiction|].
    cbn in IH |- *. rewrite <- IH. now rewrite andb_assoc.
Qed.

Lemma filter_trim_nil (ls : list string) :
  List.filter nonempty (map Js.trim ls) = [] <-> forallb Js.allWhiteSpace ls = true.
Proof.
  induction ls as [|l ls IH]; [cbn; tauto|]. cbn [map List.filter forallb].
  destruct (Js.allWhiteSpace l) eqn:E.
  - apply trim_empty_iff in E. rewrite E. exact IH.
  - destruct (Js.trim l) as [|d r] eqn:Ht.
    + apply trim_empty_iff in Ht. congruence.
    + cbn. split; discriminate.
Qed.

Lemma take_5_nil {A : Type} (l : list A) : take 5 l = [] <-> l = [].
Proof. destruct l; cbn; split; congruence. Qed.

(** X5. An answer whose first choice is blank (empty or white space only)
    gives no suggestion, and gives the empty string as explanation and as
    refactoring, not the sentinel of a missing choice; and only a blank
    answer does. *)
Theorem blank_answer (response : DeepSeekResponse) (c : DeepSeekChoice)
    (cs : list DeepSeekChoice) :
  choices response = Some (c :: cs) ->
  let blank := Js.allWhiteSpace (content (choice_message c)) = true in
  (parseCompletionResponse response = [] <-> blank) /\
  (parseExplanationResponse response = "" <-> blank) /\
  (parseRefactorResponse response = "" <-> blank).
Proof.
  intros Hc blank. subst blank.
  unfold parseCompletionResponse, parseExplanationResponse, parseRefactorResponse.
  rewrite Hc. split; [|split; apply trim_empty_iff].
  rewrite take_5_nil, filter_trim_nil. now rewrite split_lines_allWhiteSpace.
Qed.

Lemma blank_answer_witness :
  parseExplanationResponse
    (mkResponse "cmpl-2" (Some [mkChoice 0 (mkMessage "assistant" "   ") "stop"]))
  = "".
Proof.
  apply (blank_answer
           (mkResponse "cmpl-2" (Some [mkChoice 0 (mkMessage "assistant" "   ") "stop"]))
           (mkChoice 0 (mkMessage "assistant" "   ") "stop") []);
    reflexivity.
Defined.

(** Trimming only removes code units. *)
Lemma In_trimStart (x : ascii) (s : string) :
  In x (list_ascii_of_string (Js.trimStart s)) -> In x (list_ascii_of_string s).
Proof.
  induction s as [|c s IH]; cbn; [tauto|].
  destruct (Js.isWhiteSpace c); cbn; tauto.
Qed.

Lemma In_trimEnd (x : ascii) (s : string) :
  In x (list_ascii_of_string (Js.trimEnd s)) -> In x (list_ascii_of_string s).
Proof.
  induction s as [|c s IH]; [cbn; tauto|]. rewrite trimEnd_cons.
  destruct (Js.trimEnd s) as [|d r].
  - destruct (Js.isWhiteSpace c); cbn; tauto.
  - cbn in *. tauto.
Qed.

Lemma split_lines_no_LF (s l : string) :
  In l (Js.split_lines s) -> ~ In Js.LF (list_ascii_of_string l).
Proof.
  revert l. induction s as [|c s IH]; intros l; cbn [Js.split_lines].
  - intros [<-|[]]. cbn. tauto.
  - destruct (Ascii.eqb_spec c Js.LF) as [->|Hc].
    + intros [<-|H]; [cbn; tauto | now apply IH].
    + pose proof (split_lines_nonnil s) as Hn.
      destruct (Js.split_lines s) as [|l0 ls]; [contradiction|].
      intros [<-|H].
      * cbn. intros [E|E]; [congruence|]. apply (IH l0); [now left | exact E].
      * apply IH. now right.
Qed.

Lemma trimEnd_last (s pre : string) (c : ascii) :
  Js.trimEnd s = pre +:+ String c "" -> Js.isWhiteSpace c = false.
Proof.
  revert pre. induction s as [|d s IH]; intros pre.
  - destruct pre; discriminate.
  - rewrite trimEnd_cons. destruct (Js.trimEnd s) as [|e r].
    + destruct (Js.isWhiteSpace d) eqn:Ed.
      * destruct pre; discriminate.
      * destruct pre as [|p pre]; cbn.
        -- now intros [= <-].
        -- intros [= _ H]. destruct pre; discriminate.
    + destruct pre as [|p pre]; cbn.
      * discriminate.
      * intros [= _ H]. now apply (IH pre).
Qed.

(** X6. Every suggestion of the completion parser is a single line: it
    holds no line feed, and neither its first nor its last code unit is
    white space. *)
Theorem suggestions_are_single_lines (response : DeepSeekResponse) (s : string) :
  In s (parseCompletionResponse response) ->
  ~ In Js.LF (list_ascii_of_string s) /\
  (forall c rest, s = String c rest -> Js.isWhiteSpace c = false) /\
  (forall pre c, s = pre +:+ String c "" -> Js.isWhiteSpace c = false).
Proof.
  unfold parseCompletionResponse.
  destruct (choices response) as [[|ch chs]|]; try (intros []).
  intros Hs. apply In_take in Hs. apply filter_In in Hs as [Hs _].
  apply in_map_iff in Hs as (line & <- & Hline). repeat split.
  - intros H. unfold Js.trim in H. apply In_trimEnd, In_trimStart in H.
    exact (split_lines_no_LF _ _ Hline H).
  - intros c rest E. unfold Js.trim in E.
    destruct (trimEnd_head _ _ _ E) as [s' Hs']. now apply trimStart_head in Hs'.
  - intros pre c E. unfold Js.trim in E. now apply trimEnd_last in E.
Qed.

Lemma suggestions_are_single_lines_witness :
  ~ In Js.LF (list_ascii_of_string "x = 1").
Proof.
  apply (suggestions_are_single_lines (data Sample.okResponse) "x = 1").
  now left.
Defined.

End ParsersMore.

(** ** More on the retry engine *)

Section EngineMore.

Import DeepSeekClient.

Variable config : AIAssistantConfiguration.
Variable transport : Transport.

Lemma backoff_values (c : nat) :
  (c < MAX_RETRIES)%nat ->
  let delay := (2 ^ N.of_nat c * 1000)%N in
  (delay = 1000 \/ delay = 2000 \/ delay = 4000)%N /\ (1000 <= delay)%N.
Proof.
  unfold MAX_RETRIES. intros Hc.
  destruct c as [|[|[|c]]]; [| | |lia]; cbn; (split; [|lia]); tauto.
Qed.

(** What one call of [makeRequest] adds to the logs. *)
Lemma makeRequest_trace (fuel : nat) (endpoint : string)
    (payload : DeepSeekRequest) (w : World) :
  exists more ds,
    sent (snd (makeRequest config transport fuel endpoint payload w)) = sent w ++ more /\
    slept (snd (makeRequest config transport fuel endpoint payload w)) = slept w ++ ds /\
    (now w <= now (snd (makeRequest config transport fuel endpoint payload w)))%N /\
    Forall (fun a => sent_to a = endpoint /\ body a = payload /\
                     authorization a = "Bearer " +:+ apiKey config /\
                     (now w <= sent_at a)%N) more /\
    (forall i a b, more !! i = Some a -> more !! S i = Some b ->
                   (sent_at a + 1000 <= sent_at b)%N) /\
    Forall (fun d => d = 1000 \/ d = 2000 \/ d = 4000)%N ds /\
    length more =
      match fst (makeRequest config transport fuel endpoint payload w) with
      | Pending => length ds
      | _ => S (length ds)
      end.
Proof.
  revert w. induction fuel as [|fuel IH]; intros w.
  - exists [], []. cbn. rewrite !app_nil_r.
    repeat split; try constructor; try lia. intros i a b H. discriminate.
  - cbn [makeRequest]. unfold post.
    destruct (transport (length (sent w))) as [latency [response|error]].
    + exists [attempt_of config endpoint payload w], []. cbn. rewrite app_nil_r.
      repeat split; try constructor; cbn; try lia; auto.
      intros i a b _ H. destruct i; discriminate.
    + unfold handleRequestError. cbn [retryCount].
      set (c := default 0%nat (retryCount w !! requestId endpoint (now w))).
      destruct (shouldRetry (handleApiError error)
                && bool_decide (c < MAX_RETRIES)%nat) eqn:Hcond.
      * apply andb_true_iff in Hcond as [_ Hc]. apply bool_decide_eq_true in Hc.
        destruct (backoff_values c Hc) as [Hval Hmin]. cbv zeta in Hval, Hmin.
        set (delay := (2 ^ N.of_nat c * 1000)%N) in *.
        match goal with |- context [makeRequest _ _ fuel _ _ ?w1] =>
          destruct (IH w1) as (more & ds & Hsent & Hslept & Hnow & Hall & Hgap & Hds & Hlen);
          set (run := makeRequest config transport fuel endpoint payload w1) in *
        end.
        cbn [sent slept now sleep set_retryCount] in Hsent, Hslept, Hnow, Hall.
        exists (attempt_of config endpoint payload w :: more), (delay :: ds).
        rewrite Hsent, Hslept, <- !app_assoc. cbn [app].
        split; [reflexivity|]. split; [reflexivity|]. split; [lia|].
        split; [|split; [|split]].
        -- constructor; [cbn; repeat split; lia|].
           eapply Forall_impl; [exact Hall|]. cbn. intros a (? & ? & ? & ?).
           repeat split; auto; lia.
        -- intros [|i] a b Ha Hb; cbn in Ha, Hb.
           ++ injection Ha as <-. cbn [attempt_of sent_at].
              destruct more as [|b0 more']; [discriminate|]. injection Hb as <-.
              apply Forall_cons in Hall as [(_ & _ & _ & Hb0) _]. lia.
           ++ exact (Hgap i a b Ha Hb).
        -- constructor; assumption.
        -- cbn [length]. destruct (fst run); lia.
      * exists [attempt_of config endpoint payload w], []. cbn. rewrite app_nil_r.
        repeat split; try constructor; cbn; try lia; auto.
        intros i a b _ H. destruct i; discriminate.
Qed.

(** X7. All requests of one call of [makeRequest] go to the same endpoint
    with the same body and carry the configured key as bearer credential;
    none is sent before the call starts, and any two consecutive ones are
    at least one second apart. Requests sent before the call stay in the
    log. *)
Theorem attempts_of_a_call (fuel : nat) (endpoint : string)
    (payload : DeepSeekRequest) (w : World) :
  exists more,
    sent (snd (makeRequest config transport fuel endpoint payload w)) = sent w ++ more /\
    Forall (fun a => sent_to a = endpoint /\ body a = payload /\
                     authorization a = "Bearer " +:+ apiKey config /\
                     (now w <= sent_at a)%N) more /\
    (forall i a b, more !! i = Some a -> more !! S i = Some b ->
                   (sent_at a + 1000 <= sent_at b)%N).
Proof.
  destruct (makeRequest_trace fuel endpoint payload w)
    as (more & ds & H1 & _ & _ & H4 & H5 & _).
  exists more. auto.
Qed.

(** X8. Every backoff of a call lasts 1, 2 or 4 seconds, whatever the table
    holds at the start. A call that has ended, with a response or an
    error, has slept exactly once between consecutive requests: it sent
    one request more than it slept. The clock never goes back. *)
Theorem backoffs_of_a_call (fuel : nat) (endpoint : string)
    (payload : DeepSeekRequest) (w : World) :
  let run := makeRequest config transport fuel endpoint payload w in
  exists ds,
    slept (snd run) = slept w ++ ds /\
    Forall (fun d => d = 1000 \/ d = 2000 \/ d = 4000)%N ds /\
    (now w <= now (snd run))%N /\
    (length (sent (snd run)) =
       length (sent w) +
       match fst run with
       | Pending => length ds
       | _ => S (length ds)
       end)%nat.
Proof.
  cbv zeta. destruct (makeRequest_trace fuel endpoint payload w)
    as (more & ds & H1 & H2 & H3 & _ & _ & H6 & H7).
  exists ds. rewrite H1, length_app, H7. auto.
Qed.

(** X9. The stored retry counts stay between 1 and [MAX_RETRIES]: if they
    are so before a call, they are so after it. *)
Theorem retryCount_within_bounds (fuel : nat) (endpoint : string)
    (payload : DeepSeekRequest) (w : World) :
  (forall k n, retryCount w !! k = Some n -> (1 <= n <= MAX_RETRIES)%nat) ->
  forall k n,
    retryCount (snd (makeRequest config transport fuel endpoint payload w)) !! k
      = Some n ->
    (1 <= n <= MAX_RETRIES)%nat.
Proof.
  revert w. induction fuel as [|fuel IH]; intros w Hw; [exact Hw|].
  cbn [makeRequest]. unfold post.
  destruct (transport (length (sent w))) as [latency [response|error]].
  - cbn. intros k n Hk. apply lookup_delete_Some in Hk as [_ Hk]. eauto.
  - unfold handleRequestError. cbn [retryCount].
    set (c := default 0%nat (retryCount w !! requestId endpoint (now w))).
    destruct (shouldRetry (handleApiError error)
              && bool_decide (c < MAX_RETRIES)%nat) eqn:Hcond.
    + apply andb_true_iff in Hcond as [_ Hc]. apply bool_decide_eq_true in Hc.
      apply IH. cbn. intros k n Hk.
      apply lookup_insert_Some in Hk as [[_ <-]|[_ Hk]]; [lia | eauto].
    + cbn. intros k n Hk. apply lookup_delete_Some in Hk as [_ Hk]. eauto.
Qed.


Lemma fresh_ids_dispose (endpoint : string) (w : World) :
  fresh_ids endpoint (dispose w).
Proof. intros t _. apply lookup_empty. Qed.



(** X12. A response [makeRequest] resolves with is the answer of the
    network to the last request of the call, unchanged, and every earlier
    request of the call had failed. *)
Theorem resolved_is_last_answer (fuel : nat) (endpoint : string)
    (payload : DeepSeekRequest) (w w' : World) (response : AxiosResponse) :
  makeRequest config transport fuel endpoint payload w = (Resolved response, w') ->
  (length (sent w) < length (sent w'))%nat /\
  (exists latency,
     transport (length (sent w') - 1)%nat = (latency, inl response)) /\
  (forall n, (length (sent w) <= n < length (sent w') - 1)%nat ->
             exists latency error, transport n = (latency, inr error)).
Proof.
  revert w. induction fuel as [|fuel IH]; intros w; [discriminate|].
  cbn [makeRequest]. unfold post.
  destruct (transport (length (sent w))) as [latency [resp|error]] eqn:Ht.
  - intros [= <- <-]. cbn [sent set_retryCount]. rewrite length_app. cbn [length].
    replace (length (sent w) + 1 - 1)%nat with (length (sent w)) by lia.
    split; [lia|]. split; [eauto|]. intros n Hn. lia.
  - unfold handleRequestError.
    match goal with |- context [if ?b then _ else _] => destruct b end;
      [|discriminate].
    intros Hrun. apply IH in Hrun as (Hlt & Hlast & Hbefore).
    cbn [sent sleep set_retryCount] in Hlt, Hbefore.
    rewrite length_app in Hlt, Hbefore. cbn [length] in Hlt, Hbefore.
    split; [lia|]. split; [exact Hlast|].
    intros n Hn. destruct (decide (n = length (sent w))) as [->|Hne]; [eauto|].
    apply Hbefore. lia.
Qed.


End EngineMore.

Lemma retryCount_within_bounds_witness :
  (1 <= 3 <= DeepSeekClient.MAX_RETRIES)%nat.
Proof.
  apply (retryCount_within_bounds Sample.goodConfig
           (failing (fun _ => (120%N, connectionRefused))) 2
           "/models" Sample.payload Sample.exhausted)
    with (k := DeepSeekClient.requestId DeepSeekClient.CHAT Sample.T0).
  - intros k n Hk. unfold Sample.exhausted in Hk. cbn in Hk.
    apply lookup_singleton_Some in Hk as [_ <-]. unfold DeepSeekClient.MAX_RETRIES. lia.
  - vm_compute. reflexivity.
Defined.



Lemma resolved_is_last_answer_witness :
  exists latency,
    failing_twice (fun _ => (120%N, httpError 503 "overloaded")) 80 Sample.okResponse 2%nat
    = (latency, inl Sample.okResponse).
Proof.
  apply (resolved_is_last_answer Sample.goodConfig
           (failing_twice (fun _ => (120%N, httpError 503 "overloaded")) 80
              Sample.okResponse)
           5 DeepSeekClient.CHAT Sample.payload (DeepSeekClient.init Sample.T0)
           (snd (DeepSeekClient.makeRequest Sample.goodConfig
                   (failing_twice (fun _ => (120%N, httpError 503 "overloaded")) 80
                      Sample.okResponse)
                   5 DeepSeekClient.CHAT Sample.payload (DeepSeekClient.init Sample.T0)))
           Sample.okResponse).
  vm_compute. reflexivity.
Defined.


(** ** What the operations send, and what becomes of their errors *)

Section OrchestratorMore.

Import DeepSeekClient.

Variable config : AIAssistantConfiguration.
Variable transport : Transport.

(** X14. Every request an operation sends, first attempt or retry, goes to
    the chat-completion endpoint with the configured model. A completion
    asks for [min(maxTokens, 1024)] tokens, never more than 1024, at the
    configured temperature, with a system and a user message. Explanation
    and refactoring ask for the configured [maxTokens] as it is. The probe
    asks for 10 tokens at temperature 0 with a single user message. *)
Theorem requests_of_an_operation (fuel : nat) (op : Operation) (w : World) :
  exists more,
    sent (snd (perform config transport fuel op w)) = sent w ++ more /\
    Forall (fun a =>
      sent_to a = CHAT /\
      req_model (body a) = model config /\
      match op with
      | Completion _ =>
          max_tokens (body a) = Z.min (maxTokens config) 1024 /\
          max_tokens (body a) <= 1024 /\
          req_temperature (body a) = temperature config /\
          map role (messages (body a)) = ["system"; "user"]
      | Explanation _ | Refactor _ =>
          max_tokens (body a) = maxTokens config /\
          req_temperature (body a) = temperature config /\
          map role (messages (body a)) = ["system"; "user"]
      | ConnectivityProbe =>
          max_tokens (body a) = 10 /\
          req_temperature (body a) = 0%Q /\
          map role (messages (body a)) = ["user"]
      end) more.
Proof.
  destruct op as [r|r|r|]; cbn [perform];
    unfold generateCompletion, explainCode, refactorCode, testConnection;
    match goal with |- context [makeRequest ?c ?t ?f ?ep ?pl ?w0] =>
      destruct (makeRequest_trace c t f ep pl w0)
        as (more & ds & Hsent & _ & _ & Hall & _);
      destruct (makeRequest c t f ep pl w0) as [[resp|e0|] w1]
    end;
    cbn [fst snd] in Hsent |- *; exists more; (split; [exact Hsent|]);
    (eapply Forall_impl; [exact Hall|]); cbn beta;
    intros a (Hto & -> & _ & _); cbn; repeat split; auto; lia.
Qed.

End OrchestratorMore.

Section ErrorsAtTheHandler.

Lemma handleApiError_is_newError (raw : ErrorObject) :
  exists msg, DeepSeekClient.handleApiError raw = newError msg.
Proof.
  unfold DeepSeekClient.handleApiError.
  destruct (err_response raw) as [r|].
  - destruct (status r =? 401); [eauto|]. destruct (status r =? 429); [eauto|].
    destruct (status r =? 500); eauto.
  - destruct (err_request raw); eauto.
Qed.

(** An [Error] without a response goes to the network handler if its
    message holds "network", and to the generic handler otherwise. *)
Lemma dispatch_newError (msg : string) :
  ErrorHandler.handleApiError (newError msg) =
  if Js.includes "network" msg then ErrorHandler.handleNetworkError
  else ErrorHandler.handleError_generic.
Proof.
  unfold ErrorHandler.handleApiError, ErrorHandler.isNetworkError. cbn.
  now destruct (Js.includes "network" msg).
Qed.

(** X15. What [ErrorHandler.handleApiError] makes of the errors the client
    produces. An error rejected by [makeRequest] is never dispatched to the
    authentication or the rate-limit handler. Those for status 401, 429 or
    500 and those for a request without any response go to the generic
    handler, although a refused connection itself would go to the network
    handler and a 401 itself to the authentication handler. The errors
    the operations throw go to the generic handler too. *)
Theorem client_errors_at_the_handler (raw : ErrorObject) :
  let e := DeepSeekClient.handleApiError raw in
  ErrorHandler.handleApiError e <> ErrorHandler.handleAuthenticationError /\
  ErrorHandler.handleApiError e <> ErrorHandler.handleRateLimitError /\
  ((exists r, err_response raw = Some r /\
              (status r = 401 \/ status r = 429 \/ status r = 500))
   \/ (err_response raw = None /\ err_request raw = true) ->
   ErrorHandler.handleApiError e = ErrorHandler.handleError_generic) /\
  (forall op msg, failureMessage op = Some msg ->
     ErrorHandler.handleApiError (newError msg) = ErrorHandler.handleError_generic).
Proof.
  cbv zeta. split; [|split; [|split]].
  - destruct (handleApiError_is_newError raw) as [msg ->]. rewrite dispatch_newError.
    destruct (Js.includes "network" msg); discriminate.
  - destruct (handleApiError_is_newError raw) as [msg ->]. rewrite dispatch_newError.
    destruct (Js.includes "network" msg); discriminate.
  - unfold DeepSeekClient.handleApiError.
    intros [(r & -> & [H|[H|H]])|[-> ->]]; try rewrite H; reflexivity.
  - intros [r|r|r|] msg [= <-]; reflexivity.
Qed.

Lemma client_errors_at_the_handler_witness :
  ErrorHandler.handleApiError (FObject (httpError 401 "bad key"))
  = ErrorHandler.handleAuthenticationError /\
  ErrorHandler.handleApiError (DeepSeekClient.handleApiError (httpError 401 "bad key"))
  = ErrorHandler.handleError_generic /\
  ErrorHandler.handleApiError (FObject connectionRefused)
  = ErrorHandler.handleNetworkError /\
  ErrorHandler.handleApiError (DeepSeekClient.handleApiError connectionRefused)
  = ErrorHandler.handleError_generic.
Proof.
  split; [reflexivity|]. split; [|split; [reflexivity|]].
  - apply (client_errors_at_the_handler (httpError 401 "bad key")).
    left. eexists. split; [reflexivity|]. now left.
  - apply (client_errors_at_the_handler connectionRefused). right. now split.
Defined.

(** X16. The extracted message is empty only for the empty string literal
    and for an [Error] whose own message is empty or missing; for any other
    object it is the API error text, else the object's message, else the
    fixed fallback, and so has text. An [Error] always yields its own
    message, also when it carries a response with an API error text. *)
Theorem getErrorMessage_empty_iff (failure : Failure) :
  (ErrorHandler.getErrorMessage failure = "" <->
   failure = FString "" \/
   exists o, failure = FObject o /\ err_isError o = true /\
             (err_message o = None \/ err_message o = Some "")) /\
  (forall o, failure = FObject o -> err_isError o = true ->
             ErrorHandler.getErrorMessage failure = default "" (err_message o)).
Proof.
  split.
  - destruct failure as [s|o]; cbn.
    + split; [intros ->; now left|]. intros [[= ->]|(o & [=] & _)]. reflexivity.
    + destruct (err_isError o) eqn:Ei.
      * split.
        -- intros H. right. exists o. split; [reflexivity|]. split; [exact Ei|].
           destruct (err_message o) as [m|]; [right; cbn in H; now subst | now left].
        -- intros [[=]|(o' & [= <-] & _ & [->| ->])]; reflexivity.
      * split.
        -- intros H. exfalso.
           destruct (err_response o ≫= data_error_message) as [[|a m]|]; cbn in H;
             try discriminate;
             destruct (err_message o) as [[|b m']|]; cbn in H; discriminate.
        -- intros [[=]|(o' & [= <-] & Ho & _)]. congruence.
  - intros o -> Hi. cbn. now rewrite Hi.
Qed.

End ErrorsAtTheHandler.

(** ** The throttle over mixed failures, contexts and flags *)

Section ThrottleRuns.

Import ErrorHandler.

Lemma run_cons (ev : Event) (events : list Event) (st : State) :
  run (ev :: events) st =
  let st1 := snd (occurrence (ev_time ev) (ev_error ev) (ev_context ev)
                    (ev_showUser ev) st) in
  (fst (occurrence (ev_time ev) (ev_error ev) (ev_context ev) (ev_showUser ev) st)
     :: fst (run events st1),
   snd (run events st1)).
Proof.
  cbn [run].
  destruct (occurrence (ev_time ev) (ev_error ev) (ev_context ev) (ev_showUser ev) st)
    as [shown st1].
  cbn [fst snd]. now destruct (run events st1).
Qed.

(** Firing timers only deletes: a key keeps its count or loses its record. *)
Lemma fire_lookup_cases (key : string) (now : N) (st : State) :
  errorCount (fire now st) !! key = errorCount st !! key \/
  errorCount (fire now st) !! key = None.
Proof.
  unfold fire; cbn [errorCount]. generalize (errorCount st).
  induction (timers st) as [|tm l IH]; intros m; [now left|].
  cbn [foldl]. destruct (due tm <=? now)%N; [|apply IH].
  destruct (IH (delete (timer_key tm) m)) as [H|H]; [|now right].
  rewrite H. destruct (decide (timer_key tm = key)) as [->|Hne].
  - right. apply lookup_delete_eq.
  - left. now apply lookup_delete_ne.
Qed.

Lemma fire_keep (key : string) (now : N) (st : State) :
  (forall tm, In tm (timers st) -> timer_key tm = key -> (now < due tm)%N) ->
  errorCount (fire now st) !! key = errorCount st !! key.
Proof.
  unfold fire; cbn [errorCount]. generalize (errorCount st).
  induction (timers st) as [|tm l IH]; intros m Hl; [reflexivity|].
  cbn [foldl]. rewrite IH by (intros; apply Hl; [now right | assumption]).
  destruct (due tm <=? now)%N eqn:E; [|reflexivity].
  apply lookup_delete_ne. intros Hk.
  specialize (Hl tm (or_introl eq_refl) Hk). apply N.leb_le in E. lia.
Qed.

Lemma fire_reset (key : string) (now : N) (st : State) (tm : Timer) :
  In tm (timers st) -> timer_key tm = key -> (due tm <= now)%N ->
  errorCount (fire now st) !! key = None.
Proof.
  unfold fire; cbn [errorCount]. generalize (errorCount st).
  induction (timers st) as [|tm' l IH]; intros m Hin Hk Hdue; [destruct Hin|].
  cbn [foldl]. destruct Hin as [->|Hin]; [|now apply IH].
  apply N.leb_le in Hdue. rewrite Hdue, Hk.
  assert (Hnone : delete key m !! key = None) by apply lookup_delete_eq.
  revert Hnone. generalize (delete key m). clear.
  induction l as [|tm l IH]; intros m Hm; [exact Hm|].
  cbn [foldl]. apply IH. destruct (due tm <=? now)%N; [|exact Hm].
  destruct (decide (timer_key tm = key)) as [->|Hne].
  - apply lookup_delete_eq.
  - now rewrite lookup_delete_ne.
Qed.

Lemma fire_timers (now : N) (st : State) (tm : Timer) :
  In tm (timers (fire now st)) <-> In tm (timers st) /\ (now < due tm)%N.
Proof.
  unfold fire; cbn [timers]. rewrite filter_In, negb_true_iff, N.leb_gt. tauto.
Qed.

(** One call, seen from an arbitrary key. *)
Lemma occurrence_at_key (key : string) (ev : Event) (st : State) :
  let st1 := snd (occurrence (ev_time ev) (ev_error ev) (ev_context ev)
                    (ev_showUser ev) st) in
  let before := errorCount (fire (ev_time ev) st) !! key in
  errorCount st1 !! key
    = (if decide (ev_key ev = key) then Some (S (default 0%nat before)) else before) /\
  (ev_key ev = key ->
   fst (occurrence (ev_time ev) (ev_error ev) (ev_context ev) (ev_showUser ev) st)
   = ev_showUser ev && bool_decide (default 0%nat before < 5)%nat) /\
  (forall tm, In tm (timers st1) <->
     (In tm (timers st) /\ (ev_time ev < due tm)%N) \/
     tm = mkTimer (ev_time ev + RESET_AFTER)%N (ev_key ev)).
Proof.
  cbv zeta. unfold occurrence, handleError, ev_key. cbn [fst snd errorCount timers].
  split; [|split].
  - destruct (decide (getErrorKey (ev_error ev) (ev_context ev) = key)) as [<-|Hne].
    + apply lookup_insert_eq.
    + now apply lookup_insert_ne.
  - intros <-. reflexivity.
  - intros tm. rewrite in_app_iff, fire_timers. cbn. intuition congruence.
Qed.

(** The number of calls in a list that hit a key. *)
Lemma hits_cons (key : string) (ev : Event) (events : list Event) :
  length (filter (fun e => ev_key e = key) (ev :: events)) =
  ((if decide (ev_key ev = key) then 1 else 0)
   + length (filter (fun e => ev_key e = key) events))%nat.
Proof.
  destruct (decide (ev_key ev = key)) as [H|H].
  - now rewrite filter_cons_True.
  - now rewrite filter_cons_False.
Qed.

Lemma run_at_key (key : string) (t0 : N) (events : list Event) (st : State) :
  quiet_until key (t0 + RESET_AFTER) st ->
  Forall (fun ev => (t0 <= ev_time ev < t0 + RESET_AFTER)%N) events ->
  forall i ev,
    events !! i = Some ev -> ev_key ev = key ->
    fst (run events st) !! i
    = Some (ev_showUser ev &&
            bool_decide (default 0%nat (errorCount st !! key)
                         + length (filter (fun e => ev_key e = key) (take i events))
                         < 5)%nat).
Proof.
  revert st. induction events as [|ev0 events IH]; intros st Hq Hall i ev Hi Hk;
    [discriminate|].
  apply Forall_cons in Hall as [Ht Hall].
  destruct (occurrence_at_key key ev0 st) as (Hc & Hs & Htm). cbv zeta in Hc, Hs, Htm.
  assert (Hkeep : errorCount (fire (ev_time ev0) st) !! key = errorCount st !! key).
  { apply fire_keep. intros tm Hin Hkey. specialize (Hq tm Hin Hkey). lia. }
  rewrite Hkeep in Hc, Hs.
  rewrite run_cons. cbv zeta. cbn [fst].
  destruct i as [|i].
  - injection Hi as ->. rewrite (Hs Hk).
    cbn. now rewrite Nat.add_0_r.
  - change (events !! i = Some ev) in Hi.
    match goal with |- (?x :: ?l) !! S i = ?r => change (l !! i = r) end.
    set (st1 := snd (occurrence (ev_time ev0) (ev_error ev0) (ev_context ev0)
                       (ev_showUser ev0) st)) in *.
    assert (Hq1 : quiet_until key (t0 + RESET_AFTER) st1).
    { intros tm Hin Hkey. apply Htm in Hin as [[Hin _]| ->].
      - exact (Hq tm Hin Hkey).
      - cbn. lia. }
    rewrite (IH st1 Hq1 Hall i ev Hi Hk), Hc.
    change (take (S i) (ev0 :: events)) with (ev0 :: take i events).
    rewrite hits_cons. do 2 f_equal. apply bool_decide_ext.
    destruct (decide (ev_key ev0 = key)); cbn; lia.
Qed.

(** X17. Throttling is per key. Take any calls of [handleError], with any
    failures, contexts and flags, all within five minutes of [t0], on a
    handler with no record of a key and no timer of it due in that
    window. A call that hits the key notifies the user exactly when its
    [showUser] flag is set and fewer than five earlier calls of the list
    hit the same key. Calls hitting other keys do not count; silent calls
    of the key do; failures that differ only after the 50th character of
    the message hit the same key. *)
Theorem throttle_is_per_key (key : string) (t0 : N) (events : list Event)
    (st : State) (i : nat) (ev : Event) :
  errorCount st !! key = None ->
  quiet_until key (t0 + RESET_AFTER) st ->
  Forall (fun e => (t0 <= ev_time e < t0 + RESET_AFTER)%N) events ->
  events !! i = Some ev ->
  ev_key ev = key ->
  fst (run events st) !! i
  = Some (ev_showUser ev &&
          bool_decide (length (filter (fun e => ev_key e = key) (take i events)) < 5)%nat).
Proof.
  intros Habsent Hq Hall Hi Hk.
  rewrite (run_at_key key t0 events st Hq Hall i ev Hi Hk), Habsent. reflexivity.
Qed.

(** Every timer is due within five minutes of [T], and every record has a
    pending timer of its key. *)
Lemma occurrence_keeps_timed (T : N) (ev : Event) (st : State) :
  (ev_time ev <= T)%N ->
  (forall tm, In tm (timers st) -> (due tm <= T + RESET_AFTER)%N) ->
  (forall key, is_Some (errorCount st !! key) ->
               exists tm, In tm (timers st) /\ timer_key tm = key) ->
  let st1 := snd (occurrence (ev_time ev) (ev_error ev) (ev_context ev)
                    (ev_showUser ev) st) in
  (forall tm, In tm (timers st1) -> (due tm <= T + RESET_AFTER)%N) /\
  (forall key, is_Some (errorCount st1 !! key) ->
               exists tm, In tm (timers st1) /\ timer_key tm = key).
Proof.
  intros Ht Hdue Hrec st1. split.
  - intros tm Hin. apply (occurrence_at_key "" ev st) in Hin as [[Hin _]| ->].
    + now apply Hdue.
    + cbn. lia.
  - intros key Hsome.
    destruct (occurrence_at_key key ev st) as (Hc & _ & Htm). cbv zeta in Hc, Htm.
    fold st1 in Hc, Htm. rewrite Hc in Hsome.
    destruct (decide (ev_key ev = key)) as [Hk|Hk].
    + exists (mkTimer (ev_time ev + RESET_AFTER)%N (ev_key ev)).
      split; [apply Htm; now right | exact Hk].
    + destruct (fire_lookup_cases key (ev_time ev) st) as [Hsame|Hnone];
        [|rewrite Hnone in Hsome; now destruct Hsome].
      rewrite Hsame in Hsome. destruct (Hrec key Hsome) as (tm & Hin & Hkey).
      exists tm. split; [|exact Hkey]. apply Htm. left. split; [exact Hin|].
      destruct (N.lt_ge_cases (ev_time ev) (due tm)) as [Hlt|Hge]; [exact Hlt|].
      rewrite (fire_reset key (ev_time ev) st tm Hin Hkey Hge) in Hsame.
      rewrite <- Hsame in Hsome. now destruct Hsome.
Qed.

Lemma run_keeps_timed (T : N) (events : list Event) (st : State) :
  Forall (fun ev => (ev_time ev <= T)%N) events ->
  (forall tm, In tm (timers st) -> (due tm <= T + RESET_AFTER)%N) ->
  (forall key, is_Some (errorCount st !! key) ->
               exists tm, In tm (timers st) /\ timer_key tm = key) ->
  (forall tm, In tm (timers (snd (run events st))) -> (due tm <= T + RESET_AFTER)%N) /\
  (forall key, is_Some (errorCount (snd (run events st)) !! key) ->
               exists tm, In tm (timers (snd (run events st))) /\ timer_key tm = key).
Proof.
  revert st. induction events as [|ev events IH]; intros st Hall Hdue Hrec;
    [now split|].
  apply Forall_cons in Hall as [Ht Hall].
  rewrite run_cons. cbv zeta. cbn [snd].
  destruct (occurrence_keeps_timed T ev st Ht Hdue Hrec) as [Hdue1 Hrec1].
  now apply IH.
Qed.

(** X18. The handler forgets. After any calls of [handleError], once five
    minutes have passed since the latest of them, the table is empty and
    no timer is pending: the handler is as new. *)
Theorem handler_forgets_after_five_minutes (T t : N) (events : list Event) :
  Forall (fun ev => (ev_time ev <= T)%N) events ->
  (T + RESET_AFTER <= t)%N ->
  fire t (snd (run events init)) = init.
Proof.
  intros Hall Ht.
  destruct (run_keeps_timed T events init Hall) as [Hdue Hrec].
  { intros tm []. }
  { intros key [n Hn]. cbn in Hn. rewrite lookup_empty in Hn. discriminate. }
  set (st := snd (run events init)) in *.
  assert (Htimers : timers (fire t st) = []).
  { destruct (timers (fire t st)) as [|tm l] eqn:E; [reflexivity|]. exfalso.
    assert (Hin : In tm (timers (fire t st))) by (rewrite E; now left).
    apply fire_timers in Hin as [Hin Hlt]. specialize (Hdue tm Hin). lia. }
  assert (Hcount : errorCount (fire t st) = ∅).
  { apply map_eq. intros key. rewrite lookup_empty.
    destruct (errorCount st !! key) as [n|] eqn:E.
    - destruct (Hrec key) as (tm & Hin & Hkey); [rewrite E; eauto|].
      apply (fire_reset key t st tm Hin Hkey). specialize (Hdue tm Hin). lia.
    - destruct (fire_lookup_cases key t st) as [H|H]; [now rewrite H | exact H]. }
  destruct (fire t st) as [m l]. cbn in Htimers, Hcount. now subst.
Qed.

(** The count of a key after a run is at least 1 and at most the count
    before plus the number of calls that hit the key. *)
Lemma run_counts (key : string) (events : list Event) (st : State) (n : nat) :
  (forall k m, errorCount st !! k = Some m -> (1 <= m)%nat) ->
  errorCount (snd (run events st)) !! key = Some n ->
  (1 <= n <= default 0%nat (errorCount st !! key)
             + length (filter (fun e => ev_key e = key) events))%nat.
Proof.
  revert st. induction events as [|ev events IH]; intros st Hpos Hn.
  - cbn in Hn. rewrite Hn. cbn. specialize (Hpos key n Hn). lia.
  - rewrite run_cons in Hn. cbv zeta in Hn. cbn [snd] in Hn.
    set (st1 := snd (occurrence (ev_time ev) (ev_error ev) (ev_context ev)
                       (ev_showUser ev) st)) in *.
    assert (Hstep : forall k,
      errorCount st1 !! k
      = (if decide (ev_key ev = k)
         then Some (S (default 0%nat (errorCount (fire (ev_time ev) st) !! k)))
         else errorCount (fire (ev_time ev) st) !! k)).
    { intros k. apply (occurrence_at_key k ev st). }
    assert (Hfire : forall k,
      (default 0%nat (errorCount (fire (ev_time ev) st) !! k)
       <= default 0%nat (errorCount st !! k))%nat /\
      (forall m, errorCount (fire (ev_time ev) st) !! k = Some m -> (1 <= m)%nat)).
    { intros k. destruct (fire_lookup_cases k (ev_time ev) st) as [H|H]; rewrite H.
      - split; [lia|]. apply Hpos.
      - split; [cbn; lia|]. discriminate. }
    assert (Hpos1 : forall k m, errorCount st1 !! k = Some m -> (1 <= m)%nat).
    { intros k m. rewrite Hstep. destruct (decide (ev_key ev = k)).
      - intros [= <-]. lia.
      - apply Hfire. }
    specialize (IH st1 Hpos1 Hn). rewrite hits_cons.
    rewrite Hstep in IH. destruct (Hfire key) as [Hle _].
    destruct (decide (ev_key ev = key)); cbn [from_option] in IH;
      set (a := default 0%nat (errorCount (fire (ev_time ev) st) !! key)) in *;
      set (b := default 0%nat (errorCount st !! key)) in *;
      clearbody a b; unfold Datatypes.id in IH; lia.
Qed.

(** X19. The statistics never overcount. From a new handler, whatever was
    called, the count [getErrorStats] reports for a key is at least 1 and
    at most the number of calls that hit that key. *)
Theorem getErrorStats_bounds (key : string) (events : list Event) (n : nat) :
  getErrorStats (snd (run events init)) !! key = Some n ->
  (1 <= n <= length (filter (fun e => ev_key e = key) events))%nat.
Proof.
  intros Hn. apply (run_counts key events init n) in Hn; [exact Hn|].
  intros k m Hk. cbn in Hk. rewrite lookup_empty in Hk. discriminate.
Qed.

End ThrottleRuns.

Lemma throttle_is_per_key_witness :
  fst (ErrorHandler.run
         [ErrorHandler.mkEvent 0 Sample.boom Sample.ctx true;
          ErrorHandler.mkEvent 1000 (FString "other") Sample.ctx true;
          ErrorHandler.mkEvent 2000 Sample.boom Sample.ctx false;
          ErrorHandler.mkEvent 3000 Sample.boom Sample.ctx true;
          ErrorHandler.mkEvent 4000 Sample.boom Sample.ctx true;
          ErrorHandler.mkEvent 5000 Sample.boom Sample.ctx true;
          ErrorHandler.mkEvent 6000 Sample.boom Sample.ctx true]
         ErrorHandler.init) !! 6%nat
  = Some false.
Proof.
  apply (throttle_is_per_key (ErrorHandler.getErrorKey Sample.boom Sample.ctx) 0%N
           [ErrorHandler.mkEvent 0 Sample.boom Sample.ctx true;
            ErrorHandler.mkEvent 1000 (FString "other") Sample.ctx true;
            ErrorHandler.mkEvent 2000 Sample.boom Sample.ctx false;
            ErrorHandler.mkEvent 3000 Sample.boom Sample.ctx true;
            ErrorHandler.mkEvent 4000 Sample.boom Sample.ctx true;
            ErrorHandler.mkEvent 5000 Sample.boom Sample.ctx true;
            ErrorHandler.mkEvent 6000 Sample.boom Sample.ctx true]
           ErrorHandler.init 6
           (ErrorHandler.mkEvent 6000 Sample.boom Sample.ctx true)).
  - reflexivity.
  - intros tm [].
  - repeat constructor; vm_compute; congruence.
  - reflexivity.
  - reflexivity.
Defined.

Lemma handler_forgets_after_five_minutes_witness :
  ErrorHandler.fire 540000
    (snd (ErrorHandler.run
            [ErrorHandler.mkEvent 0 Sample.boom Sample.ctx true;
             ErrorHandler.mkEvent 240000 (FString "other") Sample.ctx false]
            ErrorHandler.init))
  = ErrorHandler.init.
Proof.
  apply (handler_forgets_after_five_minutes 240000 540000).
  - repeat constructor; vm_compute; congruence.
  - vm_compute. congruence.
Defined.

Lemma getErrorStats_bounds_witness :
  (1 <= 2 <= length (filter (fun e => ErrorHandler.ev_key e
                                      = ErrorHandler.getErrorKey Sample.boom Sample.ctx)
                       [ErrorHandler.mkEvent 0 Sample.boom Sample.ctx true;
                        ErrorHandler.mkEvent 1000 Sample.boom Sample.ctx false]))%nat.
Proof.
  apply (getErrorStats_bounds (ErrorHandler.getErrorKey Sample.boom Sample.ctx)
           [ErrorHandler.mkEvent 0 Sample.boom Sample.ctx true;
            ErrorHandler.mkEvent 1000 Sample.boom Sample.ctx false] 2).
  vm_compute. reflexivity.
Defined.

(** ** Logger *)

Section LoggerLevels.

Import Logger.

Variable development : bool.
Variable timestamp : string.
Variable Arg : Type.
Variable render : Arg -> string.
Variable stringify : Failure -> string.
Variable stack : ErrorObject -> string.

Lemma app_singleton_neq {A : Type} (l : list A) (x : A) : l ++ [x] <> l.
Proof.
  intros H. apply (f_equal (@length A)) in H. rewrite length_app in H. cbn in H. lia.
Qed.

(** A message at or above the level adds one line. *)
Lemma log_passes (level : LogLevel) (message : string) (args : list Arg) (lg : State) :
  level_value (logLevel lg) <= level_value level ->
  exists line,
    log development timestamp Arg render level message args lg
    = mkLogger (logLevel lg) (appended lg ++ [line])
        (if development then console lg ++ [line] else console lg)
        (match level with ERROR => S (revealed lg) | _ => revealed lg end).
Proof.
  intros H. unfold log.
  destruct (Z.ltb_spec (level_value level) (level_value (logLevel lg))); [lia|].
  eexists. reflexivity.
Qed.

Lemma log_drops (level : LogLevel) (message : string) (args : list Arg) (lg : State) :
  level_value level < level_value (logLevel lg) ->
  log development timestamp Arg render level message args lg = lg.
Proof.
  intros H. unfold log.
  destruct (Z.ltb_spec (level_value level) (level_value (logLevel lg))); [reflexivity|lia].
Qed.

(** X20. Levels of the logger. [error] is never filtered: at every level
    it appends one line and reveals the channel. [debug] writes nothing
    unless the level is DEBUG. [setLogLevel] sets the level, and announces
    the change only when the new level is DEBUG or INFO: raising the level
    to WARN or ERROR leaves no trace in the channel. *)
Theorem logger_levels (message : string) (lg : State) :
  (forall err,
     exists line,
       appended (error development timestamp Arg render stringify stack message err lg)
         = appended lg ++ [line] /\
       revealed (error development timestamp Arg render stringify stack message err lg)
         = S (revealed lg) /\
       logLevel (error development timestamp Arg render stringify stack message err lg)
         = logLevel lg) /\
  (forall args,
     debug development timestamp Arg render message args lg = lg <-> logLevel lg <> DEBUG) /\
  (forall level,
     logLevel (setLogLevel development timestamp Arg render level lg) = level /\
     (appended (setLogLevel development timestamp Arg render level lg) = appended lg
      <-> level = WARN \/ level = ERROR)).
Proof.
  split; [|split].
  - intros err. unfold error.
    match goal with |- context [log _ _ _ _ ERROR ?m ?a lg] =>
      destruct (log_passes ERROR m a lg) as [line ->]
    end; [destruct (logLevel lg); cbn; lia|].
    exists line. auto.
  - intros args. unfold debug. split.
    + intros H Hl.
      destruct (log_passes DEBUG message args lg) as [line Hline];
        [rewrite Hl; cbn; lia|].
      rewrite Hline in H. apply (f_equal appended) in H. cbn in H.
      exact (app_singleton_neq _ _ H).
    + intros Hl. apply log_drops. destruct (logLevel lg); cbn; try lia. congruence.
  - intros level. unfold setLogLevel, info. destruct level.
    1, 2: (match goal with |- context [log _ _ _ _ INFO ?m ?a ?l0] =>
             destruct (log_passes INFO m a l0) as [line ->]; [cbn; lia|]
           end; cbn; split; [reflexivity|];
           split; [intros H; now apply app_singleton_neq in H
                  | intros [|]; discriminate]).
    all: (match goal with |- context [log _ _ _ _ INFO ?m ?a ?l0] =>
            rewrite (log_drops INFO m a l0) by (cbn; lia)
          end; cbn; split; [reflexivity|]; split; auto).
Qed.

End LoggerLevels.

Lemma getErrorMessage_empty_iff_witness :
  ErrorHandler.getErrorMessage (FObject (httpError 401 "bad key"))
  = "Request failed with status code 401".
Proof.
  destruct (getErrorMessage_empty_iff (FObject (httpError 401 "bad key"))) as [_ H].
  exact (H (httpError 401 "bad key") eq_refl eq_refl).
Defined.
